(** * Avatar upload handler of [pages/api/upload-avatar.js]

    A shallow embedding of the Next.js API route together with the small
    part of the Node runtime it calls ([path.join], [fs.existsSync],
    [fs.mkdirSync], [fs.renameSync], [fs.unlinkSync], [Date.now],
    [console.error] and the response object), followed by the properties of
    the route. *)

From Stdlib Require Import ZArith Ascii String List Lia.
From stdpp Require Import base decidable option list strings pretty gmap sets.

Local Open Scope Z_scope.

(** ** Strings as JavaScript has them *)

(** [!s] for a string [s]: only the empty string is falsy. *)
Definition str_falsy (s : string) : bool :=
  match s with EmptyString => true | String _ _ => false end.

Definition isPosixPathSeparator (c : ascii) : bool := Ascii.eqb c "/"%char.

Fixpoint has_sep (s : string) : bool :=
  match s with
  | EmptyString => false
  | String c s' => isPosixPathSeparator c || has_sep s'
  end.

Definition starts_with_sep (s : string) : bool :=
  match s with
  | EmptyString => false
  | String c _ => isPosixPathSeparator c
  end.

Fixpoint ends_with_sep (s : string) : bool :=
  match s with
  | EmptyString => false
  | String c EmptyString => isPosixPathSeparator c
  | String _ s' => ends_with_sep s'
  end.

(** ** [path] (POSIX flavour) *)

Module path.

(** [s.split('/')]: the pieces between separators; never the empty list. *)
Fixpoint segments (s : string) : list string :=
  match s with
  | EmptyString => [EmptyString]
  | String c s' =>
      if isPosixPathSeparator c then EmptyString :: segments s'
      else match segments s' with
           | [] => [String c EmptyString]
           | seg :: rest => String c seg :: rest
           end
  end.

(** [l.join('/')]. *)
Fixpoint join_sep (l : list string) : string :=
  match l with
  | [] => EmptyString
  | [x] => x
  | x :: l' => x +:+ "/" +:+ join_sep l'
  end.

(** One round of the loop of Node's [normalizeString], on the stack of
    segments kept so far (innermost first): empty and ["."] segments are
    dropped, [".."] removes the last kept segment unless there is none or
    it is itself [".."], in which case it is kept only when the path may
    climb above its root. *)
Definition norm_step (allowAboveRoot : bool) (stack : list string)
    (seg : string) : list string :=
  if String.eqb seg "" || String.eqb seg "." then stack
  else if String.eqb seg ".." then
    match stack with
    | top :: rest =>
        if String.eqb top ".."
        then (if allowAboveRoot then seg :: stack else stack)
        else rest
    | [] => if allowAboveRoot then [seg] else []
    end
  else seg :: stack.

Definition normalizeString (p : string) (allowAboveRoot : bool) : string :=
  join_sep (rev (fold_left (norm_step allowAboveRoot) (segments p) [])).

(** [path.posix.normalize]. *)
Definition normalize (p : string) : string :=
  if str_falsy p then "."
  else
    let isAbsolute := starts_with_sep p in
    let trailingSeparator := ends_with_sep p in
    let q := normalizeString p (negb isAbsolute) in
    if str_falsy q then
      (if isAbsolute then "/" else if trailingSeparator then "./" else ".")
    else
      let q' := if trailingSeparator then q +:+ "/" else q in
      if isAbsolute then "/" +:+ q' else q'.

(** [path.posix.join(...args)]: the non-empty arguments glued with ['/'],
    then normalised. *)
Definition glue (args : list string) : string :=
  join_sep (List.filter (λ a, negb (str_falsy a)) args).

Definition join (args : list string) : string :=
  let joined := glue args in
  if str_falsy joined then "." else normalize joined.

End path.

(** ** The file system seen through [fs]

    Paths are absolute and already normalised (every path the route hands to
    [fs] comes out of [path.join]). A state holds the regular files with
    their bytes, the directories besides the root, and the directories whose
    entries cannot be changed (no write permission). Source and destination
    of a rename lie on one file system. *)

(** The error codes [fs] reports; [ERR_INVALID_ARG_VALUE] is raised by Node
    itself, before any system call, for a path that holds a NUL. *)
Inductive Errno :=
  | ENOENT | EACCES | EISDIR | ENOTDIR | EEXIST
  | ENAMETOOLONG | ERR_INVALID_ARG_VALUE.

#[global] Instance Errno_eq_dec : EqDecision Errno.
Proof. solve_decision. Defined.

Record FS := mkFS {
  contents : gmap string string;
  dirs : gset string;
  readonly : gset string
}.

(** The directory holding the last component of [p]. *)
Definition parent_dir (p : string) : string :=
  match rev (path.segments p) with
  | [] => "/"
  | _ :: before =>
      let d := path.join_sep (rev before) in
      if str_falsy d then "/" else d
  end.

Definition is_file (s : FS) (p : string) : bool :=
  bool_decide (is_Some (contents s !! p)).

Definition is_dir (s : FS) (p : string) : bool :=
  String.eqb p "/" || bool_decide (p ∈ dirs s).

Definition writable (s : FS) (d : string) : bool :=
  bool_decide (d ∉ readonly s).

(** [fs.existsSync(p)]: true for a file as well as for a directory. *)
Definition existsSync (p : string) (s : FS) : bool :=
  is_file s p || is_dir s p.

(** The directories on the way down to [p], outermost first:
    ["/a/b"] gives [["/a"; "/a/b"]]. *)
Fixpoint descend (base : string) (segs : list string) : list string :=
  match segs with
  | [] => []
  | x :: rest => (base +:+ "/" +:+ x) :: descend (base +:+ "/" +:+ x) rest
  end.

Definition ancestors (p : string) : list string :=
  descend "" (List.filter (λ a, negb (str_falsy a)) (path.segments p)).

Fixpoint has_nul (p : string) : bool :=
  match p with
  | EmptyString => false
  | String c p' => Ascii.eqb c "000"%char || has_nul p'
  end.

(** The bytes a string takes on disk (UTF-8): one for a character below
    128, two for the others. *)
Fixpoint byte_length (p : string) : nat :=
  match p with
  | EmptyString => O
  | String c p' =>
      ((if Nat.ltb (nat_of_ascii c) 128 then 1 else 2) + byte_length p')%nat
  end.

(** NAME_MAX and PATH_MAX of Linux. *)
Definition NAME_MAX : nat := 255.
Definition PATH_MAX : nat := 4096.

(** What is wrong with a path before any file is looked up: a NUL in it
    (Node throws), a component of more than [NAME_MAX] bytes, or
    [PATH_MAX] bytes or more in all. *)
Definition path_refused (p : string) : option Errno :=
  if has_nul p then Some ERR_INVALID_ARG_VALUE
  else if existsb (λ seg, Nat.ltb NAME_MAX (byte_length seg)) (path.segments p)
          || Nat.leb PATH_MAX (byte_length p)
  then Some ENAMETOOLONG
  else None.

(** A regular file sits where a directory on the way to [p] should be. *)
Definition file_on_the_way (s : FS) (p : string) : bool :=
  existsb (is_file s) (ancestors (parent_dir p)).

(** [fs.renameSync(old, new)] for a regular file at [old]: the parser's
    temporary path never names a directory, so a source that is not a
    regular file is reported as missing. An existing regular file at [new]
    is replaced, as rename(2) does. *)
Definition renameSync (old new : string) (s : FS) : Errno + FS :=
  match path_refused old, path_refused new with
  | Some e, _ => inl e
  | None, Some e => inl e
  | None, None =>
      match contents s !! old with
      | None => inl ENOENT
      | Some bytes =>
          if file_on_the_way s new then inl ENOTDIR
          else if ends_with_sep new then inl ENOTDIR
          else if negb (is_dir s (parent_dir new)) then inl ENOENT
          else if is_dir s new then inl EISDIR
          else if negb (writable s (parent_dir old) && writable s (parent_dir new))
          then inl EACCES
          else inr (mkFS (<[new := bytes]> (delete old (contents s)))
                         (dirs s) (readonly s))
      end
  end.

(** [fs.unlinkSync(p)]. *)
Definition unlinkSync (p : string) (s : FS) : Errno + FS :=
  match path_refused p with
  | Some e => inl e
  | None =>
      match contents s !! p with
      | None => inl ENOENT
      | Some _ =>
          if negb (writable s (parent_dir p)) then inl EACCES
          else inr (mkFS (delete p (contents s)) (dirs s) (readonly s))
      end
  end.

(** One step of the recursive mkdir towards [target]: a regular file in
    the way is [EEXIST] when it sits at [target] itself and [ENOTDIR] when
    it sits above it. *)
Definition mkdir_one (target : string) (acc : Errno + FS) (d : string)
    : Errno + FS :=
  match acc with
  | inl e => inl e
  | inr s =>
      if is_dir s d then inr s
      else if is_file s d then inl (if String.eqb d target then EEXIST else ENOTDIR)
      else if negb (is_dir s (parent_dir d)) then inl ENOTDIR
      else if negb (writable s (parent_dir d)) then inl EACCES
      else inr (mkFS (contents s) ({[d]} ∪ dirs s) (readonly s))
  end.

(** [fs.mkdirSync(p, { recursive: true })]: every missing directory on the
    way is created; a directory that is already there is not an error. *)
Definition mkdirSync_recursive (p : string) (s : FS) : Errno + FS :=
  let way := ancestors p in
  fold_left (mkdir_one (List.last way p)) way (inr s).

(** ** The world of one request, and computations over it *)

Inductive Exn :=
  | FsError (e : Errno)
  | FormError (msg : string).

(** The response object: [setHeader], [status] and [json] write into it. *)
Record Res := mkRes {
  headers : list (string * list string);
  statusCode : Z;
  jsonBody : list (list (string * string))
}.

Definition fresh_res : Res := mkRes [] 200 [].

Record World := mkWorld {
  disk : FS;
  clock : Z;
  console : list (string * Exn);
  res : Res
}.

(** A statement: it returns or throws, and leaves a world behind. *)
Definition Js (A : Type) : Type := World → (Exn + A) * World.

#[global] Instance Js_ret : MRet Js := λ A a w, (inr a, w).

#[global] Instance Js_bind : MBind Js := λ A B k m w,
  match m w with
  | (inl e, w') => (inl e, w')
  | (inr a, w') => k a w'
  end.

(** [try { m } catch (e) { h e }]. *)
Definition try_catch {A} (m : Js A) (h : Exn → Js A) : Js A := λ w,
  match m w with
  | (inl e, w') => h e w'
  | (inr a, w') => (inr a, w')
  end.

Definition fs_call (op : FS → Errno + FS) : Js unit := λ w,
  match op (disk w) with
  | inl e => (inl (FsError e), w)
  | inr s' => (inr (), mkWorld s' (clock w) (console w) (res w))
  end.

Definition fs_read {A} (q : FS → A) : Js A := λ w, (inr (q (disk w)), w).

Definition Date_now : Js Z := λ w, (inr (clock w), w).

Definition console_error (label : string) (e : Exn) : Js unit := λ w,
  (inr (), mkWorld (disk w) (clock w) (console w ++ [(label, e)]) (res w)).

Definition update_res (f : Res → Res) : Js unit := λ w,
  (inr (), mkWorld (disk w) (clock w) (console w) (f (res w))).

Definition res_setHeader (name : string) (value : list string) : Js unit :=
  update_res (λ r, mkRes (headers r ++ [(name, value)]) (statusCode r) (jsonBody r)).

Definition res_status (code : Z) : Js unit :=
  update_res (λ r, mkRes (headers r) code (jsonBody r)).

Definition res_json (obj : list (string * string)) : Js unit :=
  update_res (λ r, mkRes (headers r) (statusCode r) (jsonBody r ++ [obj])).

(** ** What the multipart parser hands to the callback *)

(** An uploaded file as formidable describes it: the name the client
    declared ([null] when there is none) and the temporary path the bytes
    were written to. *)
Record File := mkFile {
  originalFilename : option string;
  filepath : string
}.

(** A field of [files] holds one file or an array of files. *)
Inductive FileField :=
  | One (f : File)
  | Many (fs : list File).

(** The three arguments of the callback of [form.parse]. *)
Record FormResult := mkForm {
  err : option Exn;
  fields : gmap string (list string);
  files : gmap string FileField
}.

Record Request := mkReq {
  method : string;
  parsed : FormResult
}.

(** [form.parse(req, cb)] as the callback sees it: [cb] is called once
    with the parser's result, on the disk the parser left. What the parser
    wrote to get there is spelled out in [parse] further down. *)
Definition form_parse (req : Request)
    (cb : option Exn → gmap string (list string) → gmap string FileField → Js unit)
    : Js unit :=
  cb (err (parsed req)) (fields (parsed req)) (files (parsed req)).

(** ** The route *)

Section Route.

(** [process.cwd()]. *)
Variable cwd : string.

Definition uploadDir : string := path.join [cwd; "public/uploads/avatars"].

(** Lines 48-51, run once when the module is loaded. *)
Definition module_init : Js unit :=
  exists_ ← fs_read (existsSync uploadDir);
  if negb exists_ then fs_call (mkdirSync_recursive uploadDir) else mret ().

(** [Date.now() + '-' + anUploadedFile.originalFilename]. *)
Definition uniqueFilename_of (now : Z) (name : string) : string :=
  pretty now +:+ "-" +:+ name.

Definition newPath_of (now : Z) (name : string) : string :=
  path.join [uploadDir; uniqueFilename_of now name].

Definition imageUrl_of (now : Z) (name : string) : string :=
  "/uploads/avatars/" +:+ uniqueFilename_of now name.

(** [Array.isArray(file) ? file[0] : file]. *)
Definition first_file (file : FileField) : option File :=
  match file with
  | One f => Some f
  | Many l => head l
  end.

(** The callback given to [form.parse] (lines 59-99). *)
Definition on_parsed (err : option Exn) (fields : gmap string (list string))
    (files : gmap string FileField) : Js unit :=
  match err with
  | Some e =>
      console_error "Error parsing form:" e;;
      res_status 500;;
      res_json [("error", "Error parsing form data.")]
  | None =>
      match files !! "avatar" with
      | None =>
          res_status 400;;
          res_json [("error", "No file uploaded.")]
      | Some file =>
          let anUploadedFile := first_file file in
          match anUploadedFile with
          | Some (mkFile (Some name) oldPath) =>
              if str_falsy name then
                res_status 400;;
                res_json [("error", "No file uploaded or filename is missing.")]
              else
                now ← Date_now;
                let uniqueFilename := uniqueFilename_of now name in
                let newPath := path.join [uploadDir; uniqueFilename] in
                try_catch
                  (fs_call (renameSync oldPath newPath);;
                   let imageUrl := "/uploads/avatars/" +:+ uniqueFilename in
                   res_status 200;;
                   res_json [("imageUrl", imageUrl)])
                  (λ renameError,
                   console_error "Error renaming file:" renameError;;
                   try_catch
                     (fs_call (unlinkSync oldPath))
                     (λ unlinkError,
                      console_error "Error deleting temporary file:" unlinkError);;
                   res_status 500;;
                   res_json [("error", "Error saving uploaded file.")])
          | _ =>
              res_status 400;;
              res_json [("error", "No file uploaded or filename is missing.")]
          end
      end
  end.

Definition handler (req : Request) : Js unit :=
  if String.eqb (method req) "POST" then
    form_parse req on_parsed
  else
    res_setHeader "Allow" ["POST"];;
    res_status 405;;
    res_json [("error", "Method not allowed")].

End Route.

(** Serving one request: the callback runs on the file system [s] at time
    [t], with a response object nothing has been written to yet. *)
Definition serve (cwd : string) (s : FS) (t : Z) (req : Request) : World :=
  snd (handler cwd req (mkWorld s t [] fresh_res)).

(** Serving requests one after the other, each at its own time. *)
Fixpoint serve_all (cwd : string) (s : FS) (reqs : list (Z * Request)) : FS :=
  match reqs with
  | [] => s
  | (t, req) :: rest => serve_all cwd (disk (serve cwd s t req)) rest
  end.

(** ** The parser at work (lines 55-59)

    [serve] starts where the callback of [form.parse] starts, on the disk
    the parser left. What the parser does before it calls back, as lines
    55-57 direct it, is modelled here: it writes every file part of the
    body into a file of its own in [form.uploadDir], under a name it makes
    up, and hands the callback the files it wrote. *)

(** [new formidable.IncomingForm()] with the two properties the route
    sets on it. *)
Record IncomingForm := mkIncomingForm {
  form_uploadDir : string;
  form_keepExtensions : bool
}.

(** A file part of a multipart body: the field it was sent under, the
    filename the client declared, its bytes, and the name the parser makes
    up for its file (a random identifier, to which the parser may add the
    extension of the declared filename). *)
Record Part := mkPart {
  part_field : string;
  part_filename : option string;
  part_bytes : string;
  part_newFilename : string
}.

(** A request body as the parser finds it: malformed, with the error the
    parser gives up with, or well-formed, with its plain fields and its file
    parts in the order they were sent. *)
Inductive Body :=
  | Malformed (e : Exn)
  | Multipart (flds : gmap string (list string)) (parts : list Part).

(** The file object of a part: its [filepath] is
    [path.join(form.uploadDir, newFilename)]. *)
Definition part_file (form : IncomingForm) (p : Part) : File :=
  mkFile (part_filename p)
         (path.join [form_uploadDir form; part_newFilename p]).

(** Opening [p] for writing and writing [bytes]: the file is made, or
    replaced when it is there. *)
Definition write_file (p bytes : string) (s : FS) : Errno + FS :=
  match path_refused p with
  | Some e => inl e
  | None =>
      if file_on_the_way s p then inl ENOTDIR
      else if negb (is_dir s (parent_dir p)) then inl ENOENT
      else if is_dir s p then inl EISDIR
      else if negb (is_file s p) && negb (writable s (parent_dir p))
      then inl EACCES
      else inr (mkFS (<[p := bytes]> (contents s)) (dirs s) (readonly s))
  end.

(** The parts are written one after the other. *)
Fixpoint write_parts (form : IncomingForm) (parts : list Part) (s : FS)
    : Errno + FS :=
  match parts with
  | [] => inr s
  | p :: rest =>
      match write_file (filepath (part_file form p)) (part_bytes p) s with
      | inl e => inl e
      | inr s' => write_parts form rest s'
      end
  end.

Section Parser.

(** Whether the installed parser collects the files of a field in an array
    (formidable 3) or keeps one file per field, the last one sent
    (formidable 1 and 2, [multiples] not being set). *)
Variable arrays : bool.

Definition add_file (fls : gmap string FileField) (p : string * File)
    : gmap string FileField :=
  if arrays then
    <[p.1 := Many (match fls !! p.1 with
                   | Some (Many l) => l ++ [p.2]
                   | _ => [p.2]
                   end)]> fls
  else <[p.1 := One p.2]> fls.

(** The [files] argument of the callback. *)
Definition parsed_files (form : IncomingForm) (parts : list Part)
    : gmap string FileField :=
  fold_left add_file (map (λ p, (part_field p, part_file form p)) parts) ∅.

(** [form.parse(req, cb)]. For a well-formed body the parts are written
    and [cb] is called with the fields and the files. When the parser gives
    up, on a malformed body or on a write that fails, it calls [cb] with the
    error and removes the files it had opened, so that none of them is left
    once the request is over; the callback of the route does not look at
    the disk in that case. *)
Definition parse (form : IncomingForm) (body : Body)
    (cb : option Exn → gmap string (list string) → gmap string FileField → Js unit)
    : Js unit := λ w,
  match body with
  | Malformed e => cb (Some e) ∅ ∅ w
  | Multipart flds parts =>
      match write_parts form parts (disk w) with
      | inl e => cb (Some (FsError e)) ∅ ∅ w
      | inr s' =>
          cb None flds (parsed_files form parts)
             (mkWorld s' (clock w) (console w) (res w))
      end
  end.

(** [handler] (lines 53-104) with the parser spelled out. *)
Definition handler_on_body (cwd method : string) (body : Body) : Js unit :=
  if String.eqb method "POST" then
    let form := mkIncomingForm (uploadDir cwd) true in
    parse form body (on_parsed cwd)
  else
    res_setHeader "Allow" ["POST"];;
    res_status 405;;
    res_json [("error", "Method not allowed")].

(** Receiving a request on the disk [s] as it is before the parser runs. *)
Definition receive (cwd : string) (s : FS) (t : Z) (method : string)
    (body : Body) : World :=
  snd (handler_on_body cwd method body (mkWorld s t [] fresh_res)).


End Parser.


(** ** Vocabulary of the properties *)

(** The file the route works on: [files.avatar], or its first element. *)
Definition avatar_file (req : Request) : option File :=
  files (parsed req) !! "avatar" ≫= first_file.

(** A well-formed upload: a POST whose body parsed, with a file under
    ['avatar'] that carries a non-empty original filename. *)
Definition valid_upload (req : Request) (name tmp : string) : Prop :=
  method req = "POST" ∧ err (parsed req) = None ∧
  avatar_file req = Some (mkFile (Some name) tmp) ∧ name ≠ "".

(** The paths a request may act on: its temporary file and its destination. *)
Definition touched (cwd : string) (tr : Z * Request) : list string :=
  match avatar_file tr.2 with
  | Some (mkFile (Some name) tmp) => [tmp; newPath_of cwd tr.1 name]
  | _ => []
  end.

(** [p] lies strictly below the directory [root]. *)
Definition under (root p : string) : bool :=
  String.prefix (root +:+ "/") p.

(** A path component: not empty, not ["."], not [".."], no separator. *)
Definition clean_segment (s : string) : bool :=
  negb (String.eqb s "") && negb (String.eqb s ".") &&
  negb (String.eqb s "..") && negb (has_sep s).

(** An absolute path in normal form, as [process.cwd()] returns it. *)
Definition abs_normalized (p : string) : bool :=
  starts_with_sep p &&
  (String.eqb p "/" || forallb clean_segment (tail (path.segments p))).

(** A segment the normalisation keeps when it meets it. *)
Definition keep_segment (s : string) : bool :=
  negb (String.eqb s "" || String.eqb s ".").

(** No component after the first is [".."]. *)
Definition no_dotdot (name : string) : bool :=
  forallb (λ s, negb (String.eqb s "..")) (tail (path.segments name)).

(** The components of [process.cwd()] and of the upload directory. *)
Definition cwd_segments (cwd : string) : list string :=
  if String.eqb cwd "/" then [] else tail (path.segments cwd).

Definition upload_segments (cwd : string) : list string :=
  cwd_segments cwd ++ ["public"; "uploads"; "avatars"].

(** ** A concrete deployment, for examples

    The application runs in [/srv/hedwig]; the upload directory and the
    directories above it exist. *)

Definition demo_cwd : string := "/srv/hedwig".

Definition demo_dir : string := "/srv/hedwig/public/uploads/avatars".

Definition demo_dirs : gset string :=
  list_to_set ["/srv"; "/srv/hedwig"; "/srv/hedwig/public";
               "/srv/hedwig/public/uploads"; demo_dir].

(** A disk holding the given files, with every directory writable. *)
Definition demo_disk (fl : list (string * string)) : FS :=
  mkFS (list_to_map fl) demo_dirs ∅.

(** The same disk after the upload directory lost its write permission. *)
Definition locked_disk (fl : list (string * string)) : FS :=
  mkFS (list_to_map fl) demo_dirs {[demo_dir]}.

(** A POST carrying one file under ['avatar']. *)
Definition upload_of (name tmp : string) : Request :=
  mkReq "POST" (mkForm None ∅ {["avatar" := One (mkFile (Some name) tmp)]}).

(** A POST carrying an array of files under ['avatar']. *)
Definition uploads_of (l : list File) : Request :=
  mkReq "POST" (mkForm None ∅ {["avatar" := Many l]}).

Definition tmp1 : string := "/srv/hedwig/public/uploads/avatars/3f9a01c2.png".
Definition tmp2 : string := "/srv/hedwig/public/uploads/avatars/7b44e0d9.png".

(** The deployment after [public/uploads] was removed with all it held. *)
Definition pruned_disk : FS :=
  mkFS ∅ (list_to_set ["/srv"; "/srv/hedwig"; "/srv/hedwig/public"]) ∅.

(** The world in which the module is loaded. *)
Definition at_load (s : FS) : World := mkWorld s 0 [] fresh_res.

(** A body whose only part is a file under ['avatar'] sent with an empty
    filename ([filename=""]), and one whose only part is a file under
    another field. *)
Definition nameless_body : Body :=
  Multipart ∅ [mkPart "avatar" (Some "") "png bytes" "3f9a01c2"].

Definition banner_body : Body :=
  Multipart ∅ [mkPart "banner" (Some "b.png") "png bytes" "7b44e0d9.png"].

(** A body with one file under ['avatar'] declared as [name]. *)
Definition avatar_body (name newFilename bytes : string) : Body :=
  Multipart ∅ [mkPart "avatar" (Some name) bytes newFilename].

(** ** Further vocabulary for the route *)

(** The directory Next.js serves statically at the root of the site. *)
Definition publicDir (cwd : string) : string := path.join [cwd; "public"].

(** The worlds the requests of a sequence end in, one after the other. *)
Fixpoint serve_log (cwd : string) (s : FS) (reqs : list (Z * Request))
    : list World :=
  match reqs with
  | [] => []
  | (t, req) :: rest =>
      serve cwd s t req :: serve_log cwd (disk (serve cwd s t req)) rest
  end.

(** An upload to be served: its time, the request, and the name and the
    temporary path the request carries. *)
Record Job := mkJob {
  job_time : Z;
  job_req : Request;
  job_name : string;
  job_tmp : string
}.

Definition job_valid (j : Job) : Prop :=
  valid_upload (job_req j) (job_name j) (job_tmp j).

Definition job_dest (cwd : string) (j : Job) : string :=
  newPath_of cwd (job_time j) (job_name j).

Definition job_request (j : Job) : Z * Request := (job_time j, job_req j).

(** Two uploads, one second apart. *)
Definition demo_jobs : list Job :=
  [mkJob 1700000000000 (upload_of "a.png" tmp1) "a.png" tmp1;
   mkJob 1700000001000 (upload_of "b.png" tmp2) "b.png" tmp2].

(** A disk on which a regular file sits where the upload directory should
    be. *)
Definition blocked_disk (fl : list (string * string)) : FS :=
  mkFS (list_to_map ((demo_dir, "not a directory") :: fl))
       (list_to_set ["/srv"; "/srv/hedwig"; "/srv/hedwig/public";
                     "/srv/hedwig/public/uploads"]) ∅.

(** ** Regular expressions, as far as [utils/validator.js] uses them

    A JavaScript string is a sequence of UTF-16 code units; without the [u]
    flag a pattern is matched unit by unit. The patterns of the validators
    use character classes, a class repeated at least [min] times, the
    anchors [^] and [$] (no [m] flag), lookahead and concatenation. *)

Module regexp.

Inductive re : Type :=
  | Eps
  | Bol
  | Eol
  | Cls (c : N → bool)
  | Rep (c : N → bool) (min : nat)
  | Ahead (r : re)
  | Seq (a b : re).

(** [c{min,}] in front of the continuation [k]: as many units as the class
    takes, giving back one at a time. [at0] says the position is the start
    of the input. *)
Fixpoint rep (c : N → bool) (min : nat) (at0 : bool) (s : list N)
    (k : bool → list N → bool) : bool :=
  match s with
  | x :: s' =>
      (c x && rep c (Nat.pred min) false s' k) || (Nat.eqb min 0 && k at0 s)
  | [] => Nat.eqb min 0 && k at0 []
  end.

(** The backtracking matcher: does [r] match at the current position so
    that the continuation accepts what follows? *)
Fixpoint run (r : re) (at0 : bool) (s : list N)
    (k : bool → list N → bool) : bool :=
  match r with
  | Eps => k at0 s
  | Bol => at0 && k at0 s
  | Eol => match s with [] => k at0 s | _ :: _ => false end
  | Cls c => match s with x :: s' => c x && k false s' | [] => false end
  | Rep c min => rep c min at0 s k
  | Ahead r' => run r' at0 s (λ _ _, true) && k at0 s
  | Seq a b => run a at0 s (λ at0' s', run b at0' s' k)
  end.

(** A pattern without the [g] or [y] flag is tried at every position. *)
Fixpoint search (r : re) (at0 : bool) (s : list N) : bool :=
  run r at0 s (λ _ _, true) ||
  match s with
  | [] => false
  | _ :: s' => search r false s'
  end.

(** [pattern.test(s)]. *)
Definition test (r : re) (s : list N) : bool := search r true s.

Definition cat (l : list re) : re := fold_right Seq Eps l.

Definition range (lo hi : N) (c : N) : bool := (lo <=? c)%N && (c <=? hi)%N.

Definition one_of (l : list N) (c : N) : bool := existsb (N.eqb c) l.

(** [.]: any unit but a line terminator. *)
Definition dot (c : N) : bool := negb (one_of [10; 13; 8232; 8233]%N c).

(** [\s]. *)
Definition space (c : N) : bool :=
  one_of [9; 10; 11; 12; 13; 32; 160; 5760; 8232; 8233; 8239; 8287; 12288;
          65279]%N c || range 8192 8202 c.

End regexp.

(** Where a match stands after the units [pre] were passed. *)
Definition after (at0 : bool) (pre : list N) : bool :=
  match pre with [] => at0 | _ :: _ => false end.

(** ** [utils/validator.js] *)

(** The code units of a string of ASCII characters. *)
Definition units (s : string) : list N :=
  map N_of_ascii (list_ascii_of_string s).

(** [[a-zA-Z]], [[0-9]]. *)
Definition letter (c : N) : bool :=
  regexp.range 97 122 c || regexp.range 65 90 c.

Definition digit (c : N) : bool := regexp.range 48 57 c.

(** [[a-zA-Z0-9._%+-]]. *)
Definition email_local (c : N) : bool :=
  letter c || digit c || regexp.one_of [46; 95; 37; 43; 45]%N c.

(** [[a-zA-Z0-9.-]]. *)
Definition email_domain (c : N) : bool :=
  letter c || digit c || regexp.one_of [46; 45]%N c.

(** [/^[a-zA-Z0-9._%+-]+@[a-zA-Z0-9.-]+\.[a-zA-Z]{2,}$/]. *)
Definition email_pattern : regexp.re :=
  regexp.cat [regexp.Bol; regexp.Rep email_local 1; regexp.Cls (N.eqb 64);
              regexp.Rep email_domain 1; regexp.Cls (N.eqb 46);
              regexp.Rep letter 2; regexp.Eol].

Definition validateEmail (email : list N) : bool :=
  regexp.test email_pattern email.

(** [[A-Za-z0-9@$!%*#?&]]. *)
Definition password_char (c : N) : bool :=
  letter c || digit c || regexp.one_of [64; 36; 33; 37; 42; 35; 63; 38]%N c.

(** [/^(?=.*[A-Za-z])(?=.*[0-9])[A-Za-z0-9@$!%*#?&]{8,}$/]. *)
Definition password_pattern : regexp.re :=
  regexp.cat
    [regexp.Bol;
     regexp.Ahead (regexp.cat [regexp.Rep regexp.dot 0; regexp.Cls letter]);
     regexp.Ahead (regexp.cat [regexp.Rep regexp.dot 0; regexp.Cls digit]);
     regexp.Rep password_char 8; regexp.Eol].

Definition validatePassword (password : list N) : bool :=
  regexp.test password_pattern password.

(** [password1 == password2], both strings. *)
Definition validatePasswords (password1 password2 : list N) : bool :=
  bool_decide (password1 = password2).

(** [[A-ZŻŹĆĄŚĘŁÓŃ]], by code unit. *)
Definition name_upper (c : N) : bool :=
  regexp.range 65 90 c ||
  regexp.one_of [379; 377; 262; 260; 346; 280; 321; 211; 323]%N c.

(** [[A-Za-zżźćńółęąśŻŹĆĄŚĘŁÓŃ]], by code unit. *)
Definition name_letter (c : N) : bool :=
  regexp.range 65 90 c || regexp.range 97 122 c ||
  regexp.one_of [380; 378; 263; 324; 243; 322; 281; 261; 347;
                 379; 377; 262; 260; 346; 280; 321; 211; 323]%N c.

(** The pattern of [validateFullname]: an upper-case letter, one or more
    letters, a white-space unit, and the same again; no anchors. *)
Definition fullname_pattern : regexp.re :=
  regexp.cat [regexp.Cls name_upper; regexp.Rep name_letter 1;
              regexp.Cls regexp.space;
              regexp.Cls name_upper; regexp.Rep name_letter 1].

Definition validateFullname (fullname : list N) : bool :=
  regexp.test fullname_pattern fullname.

(** [content.length > 0 && content.length < 256]. *)
Definition validatePostContent (content : list N) : bool :=
  (0 <? Z.of_nat (length content))%Z && (Z.of_nat (length content) <? 256)%Z.

(** ** The test page [upload-test/page.js]

    The component keeps three pieces of state. An event handler is modelled
    by the setter calls it makes, in order, the requests it sends and what
    it logs; the state after the event is the state before it with the
    setter calls applied. *)

Module page.

(** A file picked in the browser. *)
Record BrowserFile := mkBrowserFile {
  name : string;
  bytes : string
}.

(** [file], [message], [uploadedImageUrl]; [None] for the URL stands for
    [undefined]. *)
Record State := mkState {
  file : option BrowserFile;
  message : string;
  uploadedImageUrl : option string
}.

(** [useState(null)], [useState('')], [useState('')]. *)
Definition initial : State := mkState None "" (Some "").

Inductive Action :=
  | setFile (f : option BrowserFile)
  | setMessage (m : string)
  | setUploadedImageUrl (u : option string).

Definition apply_action (st : State) (a : Action) : State :=
  match a with
  | setFile f => mkState f (message st) (uploadedImageUrl st)
  | setMessage m => mkState (file st) m (uploadedImageUrl st)
  | setUploadedImageUrl u => mkState (file st) (message st) u
  end.

Definition apply_actions (st : State) (l : list Action) : State :=
  fold_left apply_action l st.

(** [{message && <p>...}] and [{uploadedImageUrl && <div>...}]. *)
Definition shows_message (st : State) : bool := negb (str_falsy (message st)).

Definition shows_image (st : State) : bool :=
  match uploadedImageUrl st with
  | Some u => negb (str_falsy u)
  | None => false
  end.

(** [handleFileChange]: [files] is [e.target.files], [None] for [null]. *)
Definition handleFileChange (files : option (list BrowserFile))
    : list Action :=
  match files with
  | Some (f :: _) => [setFile (Some f); setMessage ""]
  | _ => [setFile None]
  end.

(** A call of [fetch] with a [FormData] body. *)
Record FetchCall := mkCall {
  url : string;
  http_method : string;
  body : list (string * BrowserFile)
}.

(** What [res.json()] gives: it throws, or it yields an object (here with
    string values). *)
Inductive Json :=
  | JsonThrows (msg : string)
  | JsonObject (data : gmap string string).

Record Response := mkResponse {
  ok : bool;
  statusText : string;
  json : Json
}.

(** What [fetch] gives: it rejects, or it resolves to a response. *)
Inductive Fetched :=
  | Rejected (msg : string)
  | Resolved (r : Response).

Record Outcome := mkOutcome {
  actions : list Action;
  calls : list FetchCall;
  logged : list (string * string)
}.

(** [a || b] on strings, [a] possibly [undefined]. *)
Definition or_else (a : option string) (b : string) : string :=
  match a with
  | Some s => if str_falsy s then b else s
  | None => b
  end.

(** [handleSubmit], run against the network [net], from a render in which
    the state is [st]. *)
Definition handleSubmit (net : FetchCall → Fetched) (st : State) : Outcome :=
  match file st with
  | None => mkOutcome [setMessage "Please select a file to upload."] [] []
  | Some f =>
      let before := [setMessage "Uploading..."; setUploadedImageUrl (Some "")] in
      let call := mkCall "/api/upload-avatar" "POST" [("avatar", f)] in
      let failed (msg : string) :=
        mkOutcome (before ++ [setMessage ("Error uploading: " +:+ msg);
                              setUploadedImageUrl (Some "")])
                  [call] [("Upload error:", msg)] in
      match net call with
      | Rejected msg => failed msg
      | Resolved r =>
          match json r with
          | JsonThrows msg => failed msg
          | JsonObject data =>
              if ok r then
                mkOutcome (before ++ [setMessage "Upload successful!";
                                      setUploadedImageUrl (data !! "imageUrl")])
                          [call] []
              else
                mkOutcome
                  (before ++
                   [setMessage ("Upload failed: " +:+
                      or_else (data !! "error")
                        (or_else (Some (statusText r)) "Unknown error"));
                    setUploadedImageUrl (Some "")])
                  [call] []
          end
      end
  end.

(** The state once the event has been handled. *)
Definition submitted (net : FetchCall → Fetched) (st : State) : State :=
  apply_actions st (actions (handleSubmit net st)).

(** The response the browser sees for what the route wrote into [res]:
    [ok] for a status from 200 to 299, the given reason phrase, and the
    JSON body that was sent. *)
Definition respond (statusText : string) (r : Res) : Fetched :=
  Resolved (mkResponse
    ((200 <=? statusCode r) && (statusCode r <=? 299))
    statusText
    (match jsonBody r with
     | [obj] => JsonObject (list_to_map obj)
     | _ => JsonThrows "Unexpected end of JSON input"
     end)).

End page.

(** ** The App Router route [api/upload-avatar/route.js]

    The second implementation of the upload, an [async] function returning
    its response. A thrown value is known by the two properties the
    [catch] block reads; the text of a system error is left open
    ([describe]), and a system error carries no [oldPath]. As for the pages
    route, the disk handed in already holds the parser's temporary
    files. *)

Module route.

Record Thrown := mkThrown {
  message : string;
  oldPath : option string
}.

(** What [formidableParse] settles with for a request. *)
Record Submission := mkSubmission {
  rejection : option Thrown;
  fields : gmap string (list string);
  files : gmap string FileField
}.

Record State := mkState {
  disk : FS;
  clock : Z;
  console : list (string * Thrown)
}.

(** [NextResponse.json(body, { status })]. *)
Record Reply := mkReply {
  status : Z;
  body : list (string * string)
}.

Definition Task (A : Type) : Type := State → (Thrown + A) * State.

#[global] Instance Task_ret : MRet Task := λ A a w, (inr a, w).

#[global] Instance Task_bind : MBind Task := λ A B k m w,
  match m w with
  | (inl e, w') => (inl e, w')
  | (inr a, w') => k a w'
  end.

Definition try_catch {A} (m : Task A) (h : Thrown → Task A) : Task A := λ w,
  match m w with
  | (inl e, w') => h e w'
  | (inr a, w') => (inr a, w')
  end.

Definition throw {A} (e : Thrown) : Task A := λ w, (inl e, w).

Definition Date_now : Task Z := λ w, (inr (clock w), w).

Definition console_error (label : string) (e : Thrown) : Task unit := λ w,
  (inr (), mkState (disk w) (clock w) (console w ++ [(label, e)])).

(** [s.includes(sub)]. *)
Fixpoint includes (sub s : string) : bool :=
  String.prefix sub s ||
  match s with
  | EmptyString => false
  | String _ s' => includes sub s'
  end.

Section Route.

Variable cwd : string.

(** The message of the error a failed system call throws: the error code,
    the name of the call and its paths go in. *)
Variable describe : Errno → string → list string → string.

Definition fs_call (syscall : string) (paths : list string)
    (op : FS → Errno + FS) : Task unit := λ w,
  match op (disk w) with
  | inl e => (inl (mkThrown (describe e syscall paths) None), w)
  | inr s' => (inr (), mkState s' (clock w) (console w))
  end.

(** [formidableParse(req, form)]: rejects with the parser's error, or
    resolves to [{ fields, files }]. *)
Definition formidableParse (req : Submission)
    : Task (gmap string (list string) * gmap string FileField) :=
  match rejection req with
  | Some e => throw e
  | None => mret (fields req, files req)
  end.

(** The [try] block of [POST]. *)
Definition attempt (req : Submission) : Task Reply :=
  fs_call "mkdir" [uploadDir cwd] (mkdirSync_recursive (uploadDir cwd));;
  parsed ← formidableParse req;
  match parsed.2 !! "avatar" with
  | None => mret (mkReply 400 [("error", "No file uploaded.")])
  | Some file =>
      match first_file file with
      | Some (mkFile (Some name) old) =>
          if str_falsy name then
            mret (mkReply 400
                    [("error", "No file uploaded or filename is missing.")])
          else
            now ← Date_now;
            let uniqueFilename := uniqueFilename_of now name in
            let newPath := path.join [uploadDir cwd; uniqueFilename] in
            fs_call "rename" [old; newPath] (renameSync old newPath);;
            let imageUrl := "/uploads/avatars/" +:+ uniqueFilename in
            mret (mkReply 200 [("imageUrl", imageUrl)])
      | _ =>
          mret (mkReply 400
                  [("error", "No file uploaded or filename is missing.")])
      end
  end.

(** The [catch] block of [POST]. *)
Definition recover (error : Thrown) : Task Reply :=
  console_error "Upload error:" error;;
  if includes "Invalid Formidable options" (message error) then
    mret (mkReply 500
            [("error",
              "Error parsing form data. Check server logs for formidable issues.")])
  else
    match oldPath error with
    | Some p =>
        if str_falsy p then mret ()
        else
          try_catch
            (fs_call "unlink" [p] (unlinkSync p))
            (λ unlinkError,
             console_error
               "Error deleting temporary file during error handling:"
               unlinkError)
    | None => mret ()
    end;;
    mret (mkReply 500 [("error", "Upload failed: " +:+ message error)]).

Definition POST (req : Submission) : Task Reply :=
  try_catch (attempt req) recover.

End Route.

(** The request the pages route would see for a submission the parser
    accepted. *)
Definition as_pages (req : Submission) : Request :=
  mkReq "POST" (mkForm None (fields req) (files req)).

End route.

(** What the [catch] block answers to a thrown value without [oldPath]. *)
Definition failure_reply (e : route.Thrown) : route.Reply :=
  if route.includes "Invalid Formidable options" (route.message e) then
    route.mkReply 500
      [("error",
        "Error parsing form data. Check server logs for formidable issues.")]
  else route.mkReply 500 [("error", "Upload failed: " +:+ route.message e)].

(** ** Strings and paths *)

Lemma sep_is_slash c : isPosixPathSeparator c = true → c = "/"%char.
Proof. unfold isPosixPathSeparator. apply Ascii.eqb_eq. Qed.

Lemma app_String c a b : String c a +:+ b = String c (a +:+ b).
Proof. reflexivity. Qed.

Lemma app_assoc_s (a b c : string) : (a +:+ b) +:+ c = a +:+ (b +:+ c).
Proof. induction a as [|x a IH]; [done |]. by rewrite !app_String, IH. Qed.

Lemma has_sep_app a b : has_sep (a +:+ b) = has_sep a || has_sep b.
Proof.
  induction a as [|c a IH]; [done |].
  rewrite app_String. simpl. by rewrite IH, orb_assoc.
Qed.

Lemma ends_with_sep_app a c b :
  ends_with_sep (a +:+ String c b) = ends_with_sep (String c b).
Proof.
  induction a as [|x a IH]; [done |].
  rewrite app_String. simpl ends_with_sep at 1.
  destruct (a +:+ String c b) eqn:E; [by destruct a | exact IH].
Qed.

Lemma ends_with_sep_nosep a : has_sep a = false → ends_with_sep a = false.
Proof.
  induction a as [|c a IH]; simpl; [done |].
  intros [Hc Ha]%orb_false_elim. destruct a; [done | auto].
Qed.

Lemma segments_nonempty p : path.segments p ≠ [].
Proof.
  destruct p as [|c p]; simpl; [done |].
  destruct (isPosixPathSeparator c); [done |].
  by destruct (path.segments p).
Qed.

Lemma segments_app_sep a b :
  path.segments (a +:+ "/" +:+ b) = path.segments a ++ path.segments b.
Proof.
  induction a as [|c a IH]; [done |].
  rewrite app_String. simpl. rewrite IH.
  destruct (isPosixPathSeparator c); [done |].
  pose proof (segments_nonempty a). by destruct (path.segments a).
Qed.

Lemma segments_nosep a : has_sep a = false → path.segments a = [a].
Proof.
  induction a as [|c a IH]; simpl; [done |].
  intros [-> Ha]%orb_false_elim. by rewrite IH.
Qed.

Lemma segments_sep_free p : Forall (λ s, has_sep s = false) (path.segments p).
Proof.
  induction p as [|c p IH]; simpl; [by repeat constructor |].
  destruct (isPosixPathSeparator c) eqn:Hc; [by constructor |].
  destruct (path.segments p) as [|seg rest].
  - constructor; [| done]. simpl. by rewrite Hc.
  - inversion IH as [|? ? Hseg Hrest]; subst.
    constructor; [| done]. simpl. by rewrite Hc.
Qed.

Lemma join_segments p : path.join_sep (path.segments p) = p.
Proof.
  induction p as [|c p IH]; [done |]. simpl path.segments.
  pose proof (segments_nonempty p) as Hne.
  destruct (isPosixPathSeparator c) eqn:Hc.
  - apply sep_is_slash in Hc as ->.
    destruct (path.segments p) as [|x l]; [done |].
    change (path.join_sep ("" :: x :: l)) with ("/" +:+ path.join_sep (x :: l)).
    by rewrite IH.
  - destruct (path.segments p) as [|x [|y l]]; [done | |].
    + simpl in *. by rewrite IH.
    + change (path.join_sep (String c x :: y :: l))
        with (String c (path.join_sep (x :: y :: l))).
      by rewrite IH.
Qed.

Lemma join_sep_cons x l :
  l ≠ [] → path.join_sep (x :: l) = x +:+ "/" +:+ path.join_sep l.
Proof. by destruct l. Qed.

Lemma join_sep_snoc l u :
  l ≠ [] → path.join_sep (l ++ [u]) = path.join_sep l +:+ "/" +:+ u.
Proof.
  induction l as [|x l IH]; [done |]. intros _.
  destruct l as [|y l]; [done |].
  rewrite <- app_comm_cons, join_sep_cons by done.
  rewrite IH by done. rewrite (join_sep_cons x (y :: l)) by done.
  by rewrite !app_assoc_s.
Qed.

Lemma segments_join_sep l :
  l ≠ [] → Forall (λ s, has_sep s = false) l →
  path.segments (path.join_sep l) = l.
Proof.
  induction l as [|x l IH]; [done |]. intros _ Hall.
  inversion Hall as [|? ? Hx Hl]; subst.
  destruct l as [|y l]; [by apply segments_nosep |].
  rewrite join_sep_cons, segments_app_sep, segments_nosep by done.
  by rewrite IH.
Qed.

Lemma clean_segment_spec s :
  clean_segment s = true ↔ s ≠ "" ∧ s ≠ "." ∧ s ≠ ".." ∧ has_sep s = false.
Proof.
  unfold clean_segment.
  rewrite !andb_true_iff, !negb_true_iff, !String.eqb_neq. tauto.
Qed.

Lemma clean_segments_sep_free l :
  forallb clean_segment l = true → Forall (λ s, has_sep s = false) l.
Proof.
  rewrite forallb_forall, Forall_forall. intros H s Hs.
  apply list_elem_of_In, H, clean_segment_spec in Hs. tauto.
Qed.

Lemma norm_step_clean a st seg :
  clean_segment seg = true → path.norm_step a st seg = seg :: st.
Proof.
  intros (H1 & H2 & H3 & _)%clean_segment_spec. unfold path.norm_step.
  apply String.eqb_neq in H1, H2, H3. by rewrite H1, H2, H3.
Qed.

Lemma fold_norm_clean a l st :
  forallb clean_segment l = true →
  fold_left (path.norm_step a) l st = rev l ++ st.
Proof.
  revert st. induction l as [|x l IH]; intros st; [done |]. simpl.
  intros [Hx Hl]%andb_true_iff.
  rewrite norm_step_clean, IH by done. by rewrite <- app_assoc.
Qed.

Lemma join_sep_truthy l :
  l ≠ [] → forallb clean_segment l = true → str_falsy (path.join_sep l) = false.
Proof.
  destruct l as [|x l]; [done |]. intros _ [Hx _]%andb_true_iff.
  apply clean_segment_spec in Hx as (Hx & _).
  destruct x as [|c x]; [done |]. by destruct l.
Qed.

(** An absolute path without a trailing separator normalises to the
    segments its normalisation loop keeps. *)
Lemma normalize_kept p l :
  starts_with_sep p = true → ends_with_sep p = false →
  fold_left (path.norm_step false) (path.segments p) [] = rev l →
  l ≠ [] → forallb clean_segment l = true →
  path.normalize p = "/" +:+ path.join_sep l.
Proof.
  intros Habs Htrail Hfold Hne Hclean. unfold path.normalize.
  destruct p as [|c p]; [done |]. cbn [str_falsy].
  unfold path.normalizeString. rewrite Habs, Htrail. cbn [negb].
  rewrite Hfold, rev_involutive.
  by rewrite join_sep_truthy.
Qed.

Lemma join_two a b :
  str_falsy a = false → str_falsy b = false →
  path.join [a; b] = path.normalize (a +:+ "/" +:+ b).
Proof.
  intros Ha Hb. destruct a as [|c a]; [done |]. destruct b as [|d b]; [done |].
  reflexivity.
Qed.

(** ** Decimal rendering of the clock *)

Lemma pretty_N_go_has_sep x s : has_sep (pretty_N_go x s) = has_sep s.
Proof.
  revert s. induction (N.lt_wf_0 x) as [x _ IH]; intros s.
  assert (x = 0 ∨ 0 < x)%N as [-> | Hpos] by lia; [done |].
  rewrite pretty_N_go_step by done. rewrite IH by (by apply N.div_lt).
  simpl. unfold pretty_N_char. by repeat case_match.
Qed.

Lemma pretty_N_go_truthy x s :
  str_falsy s = false → str_falsy (pretty_N_go x s) = false.
Proof.
  revert s. induction (N.lt_wf_0 x) as [x _ IH]; intros s Hs.
  assert (x = 0 ∨ 0 < x)%N as [-> | Hpos] by lia; [done |].
  rewrite pretty_N_go_step by done. by apply IH; [apply N.div_lt |].
Qed.

Lemma pretty_N_has_sep (n : N) : has_sep (pretty n) = false.
Proof.
  unfold pretty, pretty_N. case_decide; [done |].
  by rewrite pretty_N_go_has_sep.
Qed.

Lemma pretty_N_truthy (n : N) : str_falsy (pretty n) = false.
Proof.
  unfold pretty, pretty_N. case_decide; [done |].
  rewrite pretty_N_go_step by lia. by apply pretty_N_go_truthy.
Qed.

Lemma pretty_Z_has_sep (t : Z) : has_sep (pretty t) = false.
Proof.
  destruct t as [|x|x]; [done | apply pretty_N_has_sep |].
  change (pretty (Z.neg x)) with ("-" +:+ pretty (N.pos x)).
  by rewrite has_sep_app, pretty_N_has_sep.
Qed.

Lemma pretty_Z_truthy (t : Z) : str_falsy (pretty t) = false.
Proof. destruct t as [|x|x]; [done | apply pretty_N_truthy | done]. Qed.

(** ** The upload directory and the destination path *)

Lemma cwd_segments_clean cwd :
  abs_normalized cwd = true → forallb clean_segment (cwd_segments cwd) = true.
Proof.
  unfold abs_normalized, cwd_segments. intros [_ H]%andb_true_iff.
  destruct (String.eqb cwd "/"); [done | exact H].
Qed.

Lemma upload_segments_clean cwd :
  abs_normalized cwd = true → forallb clean_segment (upload_segments cwd) = true.
Proof.
  intros H. unfold upload_segments.
  by rewrite forallb_app, cwd_segments_clean.
Qed.

Lemma upload_segments_nonempty cwd : upload_segments cwd ≠ [].
Proof. unfold upload_segments. by destruct (cwd_segments cwd). Qed.

Lemma cwd_fold cwd :
  abs_normalized cwd = true →
  fold_left (path.norm_step false) (path.segments cwd) [] = rev (cwd_segments cwd).
Proof.
  intros H. pose proof (cwd_segments_clean _ H) as Hclean.
  unfold abs_normalized in H. apply andb_true_iff in H as [Habs _].
  unfold cwd_segments in *.
  destruct (String.eqb cwd "/") eqn:E.
  - by apply String.eqb_eq in E as ->.
  - destruct cwd as [|c cwd]; [done |]. simpl in Habs, Hclean |- *.
    rewrite Habs in Hclean |- *. simpl in Hclean |- *.
    change (path.norm_step false [] "") with (@nil string).
    rewrite fold_norm_clean by done. by rewrite app_nil_r.
Qed.

Lemma uploadDir_spec cwd :
  abs_normalized cwd = true →
  uploadDir cwd = "/" +:+ path.join_sep (upload_segments cwd).
Proof.
  intros H. pose proof H as [Habs _]%andb_true_iff.
  destruct cwd as [|c cwd]; [done |].
  unfold uploadDir. rewrite join_two by done.
  apply normalize_kept.
  - by rewrite app_String.
  - change ("/" +:+ "public/uploads/avatars") with "/public/uploads/avatars".
    by rewrite (ends_with_sep_app _ "/" "public/uploads/avatars").
  - rewrite segments_app_sep, fold_left_app, cwd_fold by done.
    change (path.segments "public/uploads/avatars")
      with ["public"; "uploads"; "avatars"].
    unfold upload_segments. rewrite rev_app_distr. reflexivity.
  - apply upload_segments_nonempty.
  - by apply upload_segments_clean.
Qed.

Lemma uploadDir_segments cwd :
  abs_normalized cwd = true →
  path.segments (uploadDir cwd) = "" :: upload_segments cwd.
Proof.
  intros H. rewrite uploadDir_spec by done.
  change (path.segments ("/" +:+ ?x)) with ("" :: path.segments x).
  f_equal. apply segments_join_sep; [apply upload_segments_nonempty |].
  by apply clean_segments_sep_free, upload_segments_clean.
Qed.

Lemma uniqueFilename_clean t name :
  has_sep name = false → clean_segment (uniqueFilename_of t name) = true.
Proof.
  intros Hname. apply clean_segment_spec. unfold uniqueFilename_of.
  pose proof (pretty_Z_truthy t) as Ht. pose proof (pretty_Z_has_sep t) as Hs.
  destruct (pretty t) as [|c r]; [done |].
  rewrite app_String.
  repeat split; try done.
  - destruct r as [|c' r]; [done |]. by rewrite app_String.
  - destruct r as [|c' [|c'' r]]; [done | by destruct name | done].
  - rewrite <- app_String, !has_sep_app, Hs, Hname. done.
Qed.

(** ** What one request does *)

Ltac run_js :=
  unfold serve, handler, form_parse, on_parsed, mbind, Js_bind, mret, Js_ret,
    try_catch, fs_call, fs_read, Date_now, console_error, res_setHeader,
    res_status, res_json, update_res, fresh_res; simpl.

Lemma avatar_file_Some req f :
  avatar_file req = Some f →
  ∃ file, files (parsed req) !! "avatar" = Some file ∧ first_file file = Some f.
Proof.
  unfold avatar_file. destruct (files (parsed req) !! "avatar") as [file|];
    [| done].
  simpl. eauto.
Qed.

Lemma avatar_file_None req :
  avatar_file req = None →
  files (parsed req) !! "avatar" = None ∨
  ∃ file, files (parsed req) !! "avatar" = Some file ∧ first_file file = None.
Proof.
  unfold avatar_file. destruct (files (parsed req) !! "avatar") as [file|];
    [| by left].
  simpl. eauto.
Qed.

(** The three ways a well-formed upload can end. *)
Lemma serve_upload cwd s t req name tmp :
  valid_upload req name tmp →
  serve cwd s t req =
    match renameSync tmp (newPath_of cwd t name) s with
    | inr s' =>
        mkWorld s' t [] (mkRes [] 200 [[("imageUrl", imageUrl_of t name)]])
    | inl e =>
        let saving := mkRes [] 500 [[("error", "Error saving uploaded file.")]] in
        match unlinkSync tmp s with
        | inr s' => mkWorld s' t [("Error renaming file:", FsError e)] saving
        | inl e' =>
            mkWorld s t [("Error renaming file:", FsError e);
                         ("Error deleting temporary file:", FsError e')] saving
        end
    end.
Proof.
  intros (Hm & Herr & Hfile & Hname).
  apply avatar_file_Some in Hfile as (file & Hlook & Hfirst).
  unfold newPath_of, imageUrl_of. run_js.
  rewrite Hm, Herr, Hlook, Hfirst. simpl.
  destruct name as [|c name]; [done |]. simpl.
  destruct (renameSync _ _ s) as [e | s']; simpl; [| done].
  by destruct (unlinkSync tmp s) as [e' | s''].
Qed.

(** A POST without a usable file is answered without touching anything. *)
Lemma serve_no_file cwd s t req :
  method req = "POST" → err (parsed req) = None →
  (avatar_file req = None ∨
   ∃ f, avatar_file req = Some f ∧
        (originalFilename f = None ∨ originalFilename f = Some "")) →
  ∃ msg, serve cwd s t req = mkWorld s t [] (mkRes [] 400 [[("error", msg)]]) ∧
         (msg = "No file uploaded." ∨
          msg = "No file uploaded or filename is missing.").
Proof.
  intros Hm Herr Hcase. run_js. rewrite Hm, Herr. simpl.
  destruct Hcase as [Hnone | (f & Hf & Hn)].
  - apply avatar_file_None in Hnone as [-> | (file & -> & ->)]; eauto.
  - apply avatar_file_Some in Hf as (file & -> & ->).
    destruct f as [o tmp]. simpl in Hn. destruct Hn as [-> | ->]; eauto.
Qed.

Lemma serve_parse_error cwd s t req e :
  method req = "POST" → err (parsed req) = Some e →
  serve cwd s t req =
    mkWorld s t [("Error parsing form:", e)]
      (mkRes [] 500 [[("error", "Error parsing form data.")]]).
Proof. intros Hm Herr. run_js. by rewrite Hm, Herr. Qed.

Lemma serve_other_method cwd s t req :
  method req ≠ "POST" →
  serve cwd s t req =
    mkWorld s t []
      (mkRes [("Allow", ["POST"])] 405 [[("error", "Method not allowed")]]).
Proof.
  intros Hm. run_js. apply String.eqb_neq in Hm. by rewrite Hm.
Qed.

(** ** Rejected requests *)

(** C5. A request whose method is not POST is answered with status 405, the
    JSON body [{ error: 'Method not allowed' }] and the header [Allow]
    listing POST alone; the file system is left as it was. *)
Theorem C5_other_method_405 cwd s t req :
  method req ≠ "POST" →
  statusCode (res (serve cwd s t req)) = 405 ∧
  jsonBody (res (serve cwd s t req)) = [[("error", "Method not allowed")]] ∧
  headers (res (serve cwd s t req)) = [("Allow", ["POST"])] ∧
  disk (serve cwd s t req) = s.
Proof. intros Hm. by rewrite serve_other_method. Qed.

Lemma C5_other_method_405_witness :
  method (mkReq "GET" (mkForm None ∅ ∅)) ≠ "POST" ∧
  statusCode (res (serve demo_cwd (demo_disk []) 1700000000000
                     (mkReq "GET" (mkForm None ∅ ∅)))) = 405.
Proof.
  split; [done |].
  by apply (C5_other_method_405 demo_cwd (demo_disk []) 1700000000000
              (mkReq "GET" (mkForm None ∅ ∅))).
Defined.

(** C6. When the multipart parser reports an error for a POST, the caller
    gets status 500 with [{ error: 'Error parsing form data.' }], the error
    is logged, no stored path is returned and the file system is left as it
    was. *)
Theorem C6_parse_error_500 cwd s t req e :
  method req = "POST" → err (parsed req) = Some e →
  statusCode (res (serve cwd s t req)) = 500 ∧
  jsonBody (res (serve cwd s t req)) = [[("error", "Error parsing form data.")]] ∧
  (∀ url, [("imageUrl", url)] ∉ jsonBody (res (serve cwd s t req))) ∧
  console (serve cwd s t req) = [("Error parsing form:", e)] ∧
  disk (serve cwd s t req) = s.
Proof.
  intros Hm Herr. rewrite (serve_parse_error _ _ _ _ e) by done. simpl.
  repeat split. intros url [= ]%list_elem_of_singleton.
Qed.

Lemma C6_parse_error_500_witness :
  statusCode (res (serve demo_cwd (demo_disk []) 1700000000000
     (mkReq "POST" (mkForm (Some (FormError "bad boundary")) ∅ ∅)))) = 500 ∧
  disk (serve demo_cwd (demo_disk []) 1700000000000
     (mkReq "POST" (mkForm (Some (FormError "bad boundary")) ∅ ∅)))
    = demo_disk [].
Proof.
  pose proof (C6_parse_error_500 demo_cwd (demo_disk []) 1700000000000
     (mkReq "POST" (mkForm (Some (FormError "bad boundary")) ∅ ∅))
     (FormError "bad boundary") eq_refl eq_refl) as H.
  tauto.
Defined.


(** C2. A POST whose ['avatar'] part is a file sent with an empty filename
    is answered 400, yet the file the parser wrote for it in the upload
    directory is still there afterwards: a new file has appeared. The same
    happens when the only file part comes under another field name. The
    branch for a failed rename, by contrast, does remove the temporary
    file. *)
Theorem C2_rejected_part_is_left_behind (arrays : bool) :
  contents (demo_disk []) = ∅ ∧
  statusCode (res (receive arrays demo_cwd (demo_disk []) 1700000000000
                     "POST" nameless_body)) = 400 ∧
  jsonBody (res (receive arrays demo_cwd (demo_disk []) 1700000000000
                   "POST" nameless_body))
    = [[("error", "No file uploaded or filename is missing.")]] ∧
  contents (disk (receive arrays demo_cwd (demo_disk []) 1700000000000
                    "POST" nameless_body))
    = {["/srv/hedwig/public/uploads/avatars/3f9a01c2" := "png bytes"]} ∧
  under (uploadDir demo_cwd) "/srv/hedwig/public/uploads/avatars/3f9a01c2"
    = true ∧
  statusCode (res (receive arrays demo_cwd (demo_disk []) 1700000000000
                     "POST" banner_body)) = 400 ∧
  jsonBody (res (receive arrays demo_cwd (demo_disk []) 1700000000000
                   "POST" banner_body))
    = [[("error", "No file uploaded.")]] ∧
  contents (disk (receive arrays demo_cwd (demo_disk []) 1700000000000
                    "POST" banner_body))
    = {["/srv/hedwig/public/uploads/avatars/7b44e0d9.png" := "png bytes"]} ∧
  statusCode (res (receive arrays demo_cwd (demo_disk []) 1700000000000
                     "POST" (avatar_body "holiday/me.png" "3f9a01c2.png"
                               "png bytes"))) = 500 ∧
  contents (disk (receive arrays demo_cwd (demo_disk []) 1700000000000
                    "POST" (avatar_body "holiday/me.png" "3f9a01c2.png"
                              "png bytes"))) = ∅.
Proof. destruct arrays; repeat split; by vm_compute. Qed.

(** ** File-system steps *)

Lemma renameSync_inr old new s s' :
  renameSync old new s = inr s' →
  ∃ bytes, contents s !! old = Some bytes ∧
    is_dir s (parent_dir new) = true ∧
    s' = mkFS (<[new := bytes]> (delete old (contents s))) (dirs s) (readonly s).
Proof.
  unfold renameSync.
  destruct (path_refused old); [done |]. destruct (path_refused new); [done |].
  destruct (contents s !! old) as [bytes|]; [| done].
  destruct (file_on_the_way s new); [done |].
  destruct (ends_with_sep new); [done |].
  destruct (is_dir s (parent_dir new)); [| done]. simpl.
  destruct (is_dir s new); [done |].
  destruct (negb _); [done |]. intros [= <-]. eauto.
Qed.

Lemma unlinkSync_inr p s s' :
  unlinkSync p s = inr s' →
  s' = mkFS (delete p (contents s)) (dirs s) (readonly s).
Proof.
  unfold unlinkSync. destruct (path_refused p); [done |].
  destruct (contents s !! p); [| done].
  destruct (negb _); [done |]. by intros [= <-].
Qed.

Lemma renameSync_frame old new s s' p :
  renameSync old new s = inr s' → p ≠ old → p ≠ new →
  contents s' !! p = contents s !! p.
Proof.
  intros (bytes & _ & _ & ->)%renameSync_inr Ho Hn. simpl.
  by rewrite lookup_insert_ne, lookup_delete_ne.
Qed.

Lemma renameSync_moved old new s s' :
  renameSync old new s = inr s' → contents s' !! new = contents s !! old.
Proof.
  intros (bytes & Hb & _ & ->)%renameSync_inr. simpl.
  by rewrite lookup_insert_eq.
Qed.

Lemma unlinkSync_frame q s s' p :
  unlinkSync q s = inr s' → p ≠ q → contents s' !! p = contents s !! p.
Proof. intros ->%unlinkSync_inr Hp. simpl. by rewrite lookup_delete_ne. Qed.

Lemma unlinkSync_gone q s s' :
  unlinkSync q s = inr s' → contents s' !! q = None.
Proof. intros ->%unlinkSync_inr. simpl. by rewrite lookup_delete_eq. Qed.

(** Every request ends in one of the shapes above; this splits them. *)
Lemma request_cases req :
  method req ≠ "POST" ∨
  (method req = "POST" ∧ ∃ e, err (parsed req) = Some e) ∨
  (method req = "POST" ∧ err (parsed req) = None ∧
   (avatar_file req = None ∨
    ∃ f, avatar_file req = Some f ∧
         (originalFilename f = None ∨ originalFilename f = Some ""))) ∨
  (∃ name tmp, valid_upload req name tmp).
Proof.
  destruct (decide (method req = "POST")) as [Hm | Hm]; [| by left].
  destruct (err (parsed req)) as [e|] eqn:He; [right; left; eauto |].
  destruct (avatar_file req) as [[[name|] tmp]|] eqn:Hf.
  - destruct (decide (name = "")) as [-> | Hn].
    + right; right; left. repeat split; try done. right. eauto.
    + right; right; right. by exists name, tmp.
  - right; right; left. repeat split; try done. right. eauto.
  - right; right; left. auto.
Qed.

(** Only the temporary path and the destination of a request can change. *)
Lemma serve_frame cwd s t req p :
  p ∉ touched cwd (t, req) →
  contents (disk (serve cwd s t req)) !! p = contents s !! p.
Proof.
  intros Hp.
  destruct (request_cases req)
    as [Hm | [(Hm & e & He) | [(Hm & He & Hc) | (name & tmp & Hv)]]].
  - by rewrite serve_other_method.
  - by rewrite (serve_parse_error _ _ _ _ e).
  - by destruct (serve_no_file cwd s t req Hm He Hc) as (msg & -> & _).
  - pose proof Hv as (_ & _ & Hf & _).
    unfold touched in Hp. simpl in Hp. rewrite Hf in Hp.
    apply not_elem_of_cons in Hp as [Hp1 Hp2].
    apply not_elem_of_cons in Hp2 as [Hp2 _].
    rewrite (serve_upload _ _ _ _ name tmp) by done.
    destruct (renameSync _ _ s) as [e | s'] eqn:Hr; simpl.
    + destruct (unlinkSync tmp s) as [e' | s''] eqn:Hu; simpl; [done |].
      by apply (unlinkSync_frame tmp).
    + by apply (renameSync_frame tmp (newPath_of cwd t name)).
Qed.

(** No request creates, removes or re-protects a directory. *)
Lemma serve_dirs cwd s t req :
  dirs (disk (serve cwd s t req)) = dirs s ∧
  readonly (disk (serve cwd s t req)) = readonly s.
Proof.
  destruct (request_cases req)
    as [Hm | [(Hm & e & He) | [(Hm & He & Hc) | (name & tmp & Hv)]]].
  - by rewrite serve_other_method.
  - by rewrite (serve_parse_error _ _ _ _ e).
  - by destruct (serve_no_file cwd s t req Hm He Hc) as (msg & -> & _).
  - rewrite (serve_upload _ _ _ _ name tmp) by done.
    destruct (renameSync _ _ s) as [e | s'] eqn:Hr; simpl.
    + destruct (unlinkSync tmp s) as [e' | s''] eqn:Hu; simpl; [done |].
      by apply unlinkSync_inr in Hu as ->.
    + by apply renameSync_inr in Hr as (bytes & _ & _ & ->).
Qed.

(** ** Uploads *)

(** C1 (counterexample). A well-formed upload is not always answered with
    200: with the original filename [holiday/me.png] the destination lies
    in a directory that does not exist, the rename throws, and the caller
    gets 500; so does any upload while the upload directory is read-only. *)
Lemma C1_rename_may_fail :
  valid_upload (upload_of "holiday/me.png" tmp1) "holiday/me.png" tmp1 ∧
  contents (demo_disk [(tmp1, "png bytes")]) !! tmp1 = Some "png bytes" ∧
  statusCode (res (serve demo_cwd (demo_disk [(tmp1, "png bytes")])
                     1700000000000 (upload_of "holiday/me.png" tmp1))) = 500 ∧
  jsonBody (res (serve demo_cwd (demo_disk [(tmp1, "png bytes")])
                   1700000000000 (upload_of "holiday/me.png" tmp1)))
    = [[("error", "Error saving uploaded file.")]] ∧
  valid_upload (upload_of "me.png" tmp1) "me.png" tmp1 ∧
  statusCode (res (serve demo_cwd (locked_disk [(tmp1, "png bytes")])
                     1700000000000 (upload_of "me.png" tmp1))) = 500.
Proof. repeat split; try done; by vm_compute. Qed.

(** C1 (amended). A well-formed upload whose rename succeeds is answered
    with status 200 and the JSON body [{ imageUrl }], where [imageUrl] is
    ['/uploads/avatars/'], the clock in decimal, a dash and the original
    filename unchanged; the file system is the one the rename produced. *)
Theorem C1_upload_200 cwd s t req name tmp s' :
  valid_upload req name tmp →
  renameSync tmp (newPath_of cwd t name) s = inr s' →
  statusCode (res (serve cwd s t req)) = 200 ∧
  jsonBody (res (serve cwd s t req))
    = [[("imageUrl", "/uploads/avatars/" +:+ pretty t +:+ "-" +:+ name)]] ∧
  disk (serve cwd s t req) = s'.
Proof.
  intros Hv Hr. rewrite (serve_upload _ _ _ _ name tmp) by done.
  by rewrite Hr.
Qed.

Lemma C1_upload_200_witness :
  valid_upload (upload_of "me.png" tmp1) "me.png" tmp1 ∧
  statusCode (res (serve demo_cwd (demo_disk [(tmp1, "png bytes")])
                     1700000000000 (upload_of "me.png" tmp1))) = 200 ∧
  jsonBody (res (serve demo_cwd (demo_disk [(tmp1, "png bytes")])
                   1700000000000 (upload_of "me.png" tmp1)))
    = [[("imageUrl", "/uploads/avatars/1700000000000-me.png")]].
Proof.
  assert (valid_upload (upload_of "me.png" tmp1) "me.png" tmp1) as Hv
    by (by repeat split).
  split; [exact Hv |].
  destruct (renameSync tmp1 (newPath_of demo_cwd 1700000000000 "me.png")
              (demo_disk [(tmp1, "png bytes")])) as [e | s'] eqn:Hr;
    [by vm_compute in Hr |].
  destruct (C1_upload_200 demo_cwd _ 1700000000000 _ "me.png" tmp1 s' Hv Hr)
    as (H200 & Hbody & _).
  split; [exact H200 | exact Hbody].
Defined.

(** C3 (counterexample). With the upload directory read-only the rename
    fails, and so does the removal of the temporary file, which sits in
    that same directory: the caller gets 500 and the temporary file is
    still on disk. *)
Lemma C3_temp_file_may_remain :
  valid_upload (upload_of "me.png" tmp1) "me.png" tmp1 ∧
  renameSync tmp1 (newPath_of demo_cwd 1700000000000 "me.png")
    (locked_disk [(tmp1, "png bytes")]) = inl EACCES ∧
  statusCode (res (serve demo_cwd (locked_disk [(tmp1, "png bytes")])
                     1700000000000 (upload_of "me.png" tmp1))) = 500 ∧
  contents (disk (serve demo_cwd (locked_disk [(tmp1, "png bytes")])
                    1700000000000 (upload_of "me.png" tmp1))) !! tmp1
    = Some "png bytes".
Proof. repeat split; try done; by vm_compute. Qed.

(** C3 (amended). When the rename of a well-formed upload throws, the
    response is status 500 with [{ error: 'Error saving uploaded file.' }]
    whatever the cleanup does, and the rename error is logged. The handler
    then tries to unlink the temporary file: if that succeeds the file is no
    longer on disk; if it throws, the second error is logged as well, the
    file system is left as it was, and the response is the same. *)
Theorem C3_rename_failure_500 cwd s t req name tmp e :
  valid_upload req name tmp →
  renameSync tmp (newPath_of cwd t name) s = inl e →
  res (serve cwd s t req)
    = mkRes [] 500 [[("error", "Error saving uploaded file.")]] ∧
  match unlinkSync tmp s with
  | inr s' =>
      disk (serve cwd s t req) = s' ∧
      contents (disk (serve cwd s t req)) !! tmp = None ∧
      console (serve cwd s t req) = [("Error renaming file:", FsError e)]
  | inl e' =>
      disk (serve cwd s t req) = s ∧
      console (serve cwd s t req)
        = [("Error renaming file:", FsError e);
           ("Error deleting temporary file:", FsError e')]
  end.
Proof.
  intros Hv Hr. rewrite (serve_upload _ _ _ _ name tmp) by done.
  rewrite Hr. simpl.
  destruct (unlinkSync tmp s) as [e' | s'] eqn:Hu; simpl; [done |].
  repeat split. by apply (unlinkSync_gone tmp s).
Qed.

Lemma C3_rename_failure_500_witness :
  valid_upload (upload_of "holiday/me.png" tmp1) "holiday/me.png" tmp1 ∧
  res (serve demo_cwd (demo_disk [(tmp1, "png bytes")]) 1700000000000
         (upload_of "holiday/me.png" tmp1))
    = mkRes [] 500 [[("error", "Error saving uploaded file.")]].
Proof.
  assert (valid_upload (upload_of "holiday/me.png" tmp1) "holiday/me.png" tmp1)
    as Hv by (by repeat split).
  split; [exact Hv |].
  assert (renameSync tmp1 (newPath_of demo_cwd 1700000000000 "holiday/me.png")
            (demo_disk [(tmp1, "png bytes")]) = inl ENOENT) as Hr
    by (by vm_compute).
  exact (proj1 (C3_rename_failure_500 demo_cwd _ 1700000000000 _
                  "holiday/me.png" tmp1 ENOENT Hv Hr)).
Defined.

(** C9. The destination is [path.join] of the upload directory and the
    clock, a dash and the declared filename, taken as the client sent it:
    whenever an upload is answered with 200, the bytes of its temporary file
    are at that path. For some declared filename with ['../'] segments, that
    path is not below the upload directory: [x/../../evil.png] is stored as
    [/srv/hedwig/public/uploads/evil.png]. *)
Theorem C9_destination_not_confined :
  (∀ cwd s t req name tmp,
     valid_upload req name tmp →
     statusCode (res (serve cwd s t req)) = 200 →
     is_Some (contents s !! tmp) ∧
     contents (disk (serve cwd s t req))
       !! path.join [uploadDir cwd; pretty t +:+ "-" +:+ name]
       = contents s !! tmp) ∧
  (∃ name,
     (∃ a b, name = a +:+ "../" +:+ b) ∧
     valid_upload (upload_of name tmp1) name tmp1 ∧
     statusCode (res (serve demo_cwd (demo_disk [(tmp1, "png bytes")])
                        1700000000000 (upload_of name tmp1))) = 200 ∧
     path.join [uploadDir demo_cwd; pretty 1700000000000 +:+ "-" +:+ name]
       = "/srv/hedwig/public/uploads/evil.png" ∧
     under (uploadDir demo_cwd) "/srv/hedwig/public/uploads/evil.png" = false ∧
     contents (disk (serve demo_cwd (demo_disk [(tmp1, "png bytes")])
                       1700000000000 (upload_of name tmp1)))
       !! "/srv/hedwig/public/uploads/evil.png" = Some "png bytes").
Proof.
  split.
  - intros cwd s t req name tmp Hv H200.
    rewrite (serve_upload _ _ _ _ name tmp) in H200 |- * by done.
    change (path.join [uploadDir cwd; pretty t +:+ "-" +:+ name])
      with (newPath_of cwd t name).
    destruct (renameSync tmp (newPath_of cwd t name) s) as [e | s'] eqn:Hr.
    + simpl in H200. by destruct (unlinkSync tmp s).
    + simpl. split; [| by apply renameSync_moved].
      apply renameSync_inr in Hr as (bytes & -> & _). eauto.
  - exists "x/../../evil.png". split; [by exists "x/", "../evil.png" |].
    repeat split; try done; by vm_compute.
Qed.

Lemma C9_destination_not_confined_witness :
  valid_upload (upload_of "me.png" tmp1) "me.png" tmp1 ∧
  contents (disk (serve demo_cwd (demo_disk [(tmp1, "png bytes")])
                    1700000000000 (upload_of "me.png" tmp1)))
    !! path.join [uploadDir demo_cwd; pretty 1700000000000 +:+ "-" +:+ "me.png"]
    = contents (demo_disk [(tmp1, "png bytes")]) !! tmp1.
Proof.
  assert (valid_upload (upload_of "me.png" tmp1) "me.png" tmp1) as Hv
    by (by repeat split).
  split; [exact Hv |].
  refine (proj2 (proj1 C9_destination_not_confined demo_cwd
                   (demo_disk [(tmp1, "png bytes")]) 1700000000000
                   (upload_of "me.png" tmp1) "me.png" tmp1 Hv _)).
  by vm_compute.
Defined.

(** C10 (counterexample). An array under ['avatar'] does not always get its
    first element stored and reported: with the first file declared as
    [holiday/me.png] the rename throws, the caller gets 500 with an error
    and no [imageUrl], and no path holds a file it did not hold before. *)
Lemma C10_first_element_may_not_be_stored :
  method (uploads_of [mkFile (Some "holiday/me.png") tmp1;
                      mkFile (Some "b.png") tmp2]) = "POST" ∧
  files (parsed (uploads_of [mkFile (Some "holiday/me.png") tmp1;
                             mkFile (Some "b.png") tmp2])) !! "avatar"
    = Some (Many [mkFile (Some "holiday/me.png") tmp1;
                  mkFile (Some "b.png") tmp2]) ∧
  statusCode (res (serve demo_cwd
     (demo_disk [(tmp1, "first bytes"); (tmp2, "second bytes")]) 1700000000000
     (uploads_of [mkFile (Some "holiday/me.png") tmp1;
                  mkFile (Some "b.png") tmp2]))) = 500 ∧
  jsonBody (res (serve demo_cwd
     (demo_disk [(tmp1, "first bytes"); (tmp2, "second bytes")]) 1700000000000
     (uploads_of [mkFile (Some "holiday/me.png") tmp1;
                  mkFile (Some "b.png") tmp2])))
    = [[("error", "Error saving uploaded file.")]] ∧
  contents (disk (serve demo_cwd
     (demo_disk [(tmp1, "first bytes"); (tmp2, "second bytes")]) 1700000000000
     (uploads_of [mkFile (Some "holiday/me.png") tmp1;
                  mkFile (Some "b.png") tmp2])))
    = {[tmp2 := "second bytes"]}.
Proof. repeat split; try done; by vm_compute. Qed.

(** C10 (amended). When ['avatar'] holds an array of files, the handler
    works on its first element alone. The request is served exactly as if
    that element were the only file. If the first element has a non-empty
    original filename and its rename succeeds, the answer is 200 with the
    [imageUrl] made from the first element's name, and the first element's
    bytes are at the path generated from that name; if the rename throws,
    the answer is 500 and no path other than the first element's temporary
    one changes; if the first element has no filename, the answer is 400 and
    the disk is untouched. Every path other than the first file's temporary
    path and its destination keeps what it held: the temporary files of the
    remaining elements stay where the parser put them, and nothing appears
    under a name generated for them. *)
Theorem C10_only_first_of_array cwd s t req f rest :
  method req = "POST" → err (parsed req) = None →
  files (parsed req) !! "avatar" = Some (Many (f :: rest)) →
  serve cwd s t req
    = serve cwd s t (mkReq "POST" (mkForm None (fields (parsed req))
                                     (<["avatar" := One f]> (files (parsed req))))) ∧
  (∀ p, p ≠ filepath f →
        (∀ name, originalFilename f = Some name → p ≠ newPath_of cwd t name) →
        contents (disk (serve cwd s t req)) !! p = contents s !! p) ∧
  (∀ name tmp s',
     f = mkFile (Some name) tmp → name ≠ "" →
     renameSync tmp (newPath_of cwd t name) s = inr s' →
     statusCode (res (serve cwd s t req)) = 200 ∧
     jsonBody (res (serve cwd s t req))
       = [[("imageUrl", "/uploads/avatars/" +:+ pretty t +:+ "-" +:+ name)]] ∧
     disk (serve cwd s t req) = s' ∧
     is_Some (contents s !! tmp) ∧
     contents (disk (serve cwd s t req))
       !! path.join [uploadDir cwd; pretty t +:+ "-" +:+ name]
       = contents s !! tmp) ∧
  (∀ name tmp e,
     f = mkFile (Some name) tmp → name ≠ "" →
     renameSync tmp (newPath_of cwd t name) s = inl e →
     statusCode (res (serve cwd s t req)) = 500 ∧
     jsonBody (res (serve cwd s t req))
       = [[("error", "Error saving uploaded file.")]] ∧
     ∀ p, p ≠ tmp → contents (disk (serve cwd s t req)) !! p = contents s !! p) ∧
  (originalFilename f = None ∨ originalFilename f = Some "" →
   statusCode (res (serve cwd s t req)) = 400 ∧
   jsonBody (res (serve cwd s t req))
     = [[("error", "No file uploaded or filename is missing.")]] ∧
   disk (serve cwd s t req) = s) ∧
  (∀ g, g ∈ rest →
        filepath g ≠ filepath f →
        (∀ name, originalFilename f = Some name →
                 filepath g ≠ newPath_of cwd t name) →
        contents (disk (serve cwd s t req)) !! filepath g
        = contents s !! filepath g) ∧
  (∀ g n, g ∈ rest → originalFilename g = Some n →
          newPath_of cwd t n ≠ filepath f →
          (∀ name, originalFilename f = Some name →
                   newPath_of cwd t n ≠ newPath_of cwd t name) →
          contents (disk (serve cwd s t req)) !! newPath_of cwd t n
          = contents s !! newPath_of cwd t n).
Proof.
  intros Hm Herr Hlook.
  assert (∀ p, p ≠ filepath f →
            (∀ name, originalFilename f = Some name →
                     p ≠ newPath_of cwd t name) →
            contents (disk (serve cwd s t req)) !! p = contents s !! p)
    as Hframe.
  { intros p Hp Hnew. apply serve_frame.
    unfold touched, avatar_file. simpl. rewrite Hlook. simpl.
    destruct f as [[name|] tmp]; simpl in *; [| apply not_elem_of_nil].
    specialize (Hnew name eq_refl).
    by repeat (apply not_elem_of_cons; split); [.. | apply not_elem_of_nil]. }
  assert (∀ name tmp, f = mkFile (Some name) tmp → name ≠ "" →
            valid_upload req name tmp) as Hvalid.
  { intros name tmp -> Hne. repeat split; try done.
    unfold avatar_file. by rewrite Hlook. }
  split; [| split; [exact Hframe |]; split; [| split; [| split; [| split]]]].
  - run_js. by rewrite Hm, Herr, Hlook, lookup_insert_eq.
  - intros name tmp s' Hf Hne Hr.
    rewrite (serve_upload _ _ _ _ name tmp) by (by apply Hvalid).
    change (path.join [uploadDir cwd; pretty t +:+ "-" +:+ name])
      with (newPath_of cwd t name).
    rewrite Hr. simpl. repeat split.
    + apply renameSync_inr in Hr as (bytes & -> & _). eauto.
    + by apply renameSync_moved.
  - intros name tmp e Hf Hne Hr.
    rewrite (serve_upload _ _ _ _ name tmp) by (by apply Hvalid).
    rewrite Hr. simpl.
    destruct (unlinkSync tmp s) as [e' | s''] eqn:Hu; simpl;
      (split; [done |]; split; [done |]); [done |].
    intros p Hp. by apply (unlinkSync_frame tmp).
  - intros Hnone.
    destruct (serve_no_file cwd s t req Hm Herr) as (msg & Hs & _).
    { right. exists f. split; [| done]. unfold avatar_file. by rewrite Hlook. }
    revert Hs. run_js. rewrite Hm, Herr, Hlook. simpl.
    destruct f as [o tmp]. simpl in Hnone.
    by destruct Hnone as [-> | ->]; simpl.
  - intros g _. apply Hframe.
  - intros g n _ _. apply Hframe.
Qed.

Lemma C10_only_first_of_array_witness :
  statusCode (res (serve demo_cwd
     (demo_disk [(tmp1, "first bytes"); (tmp2, "second bytes")]) 1700000000000
     (uploads_of [mkFile (Some "a.png") tmp1; mkFile (Some "b.png") tmp2])))
    = 200 ∧
  jsonBody (res (serve demo_cwd
     (demo_disk [(tmp1, "first bytes"); (tmp2, "second bytes")]) 1700000000000
     (uploads_of [mkFile (Some "a.png") tmp1; mkFile (Some "b.png") tmp2])))
    = [[("imageUrl", "/uploads/avatars/1700000000000-a.png")]] ∧
  contents (disk (serve demo_cwd
     (demo_disk [(tmp1, "first bytes"); (tmp2, "second bytes")]) 1700000000000
     (uploads_of [mkFile (Some "a.png") tmp1; mkFile (Some "b.png") tmp2])))
    !! "/srv/hedwig/public/uploads/avatars/1700000000000-a.png"
    = Some "first bytes" ∧
  contents (disk (serve demo_cwd
     (demo_disk [(tmp1, "first bytes"); (tmp2, "second bytes")]) 1700000000000
     (uploads_of [mkFile (Some "a.png") tmp1; mkFile (Some "b.png") tmp2])))
    !! tmp2 = Some "second bytes" ∧
  contents (disk (serve demo_cwd
     (demo_disk [(tmp1, "first bytes"); (tmp2, "second bytes")]) 1700000000000
     (uploads_of [mkFile (Some "a.png") tmp1; mkFile (Some "b.png") tmp2])))
    !! "/srv/hedwig/public/uploads/avatars/1700000000000-b.png" = None.
Proof.
  destruct (C10_only_first_of_array demo_cwd
     (demo_disk [(tmp1, "first bytes"); (tmp2, "second bytes")]) 1700000000000
     (uploads_of [mkFile (Some "a.png") tmp1; mkFile (Some "b.png") tmp2])
     (mkFile (Some "a.png") tmp1) [mkFile (Some "b.png") tmp2]
     eq_refl eq_refl eq_refl)
    as (_ & _ & Hstore & _ & _ & Hkept & Hnot).
  destruct (renameSync tmp1 (newPath_of demo_cwd 1700000000000 "a.png")
              (demo_disk [(tmp1, "first bytes"); (tmp2, "second bytes")]))
    as [e | s'] eqn:Hr; [by vm_compute in Hr |].
  destruct (Hstore "a.png" tmp1 s' eq_refl ltac:(done) Hr)
    as (H200 & Hbody & _ & _ & Hbytes).
  split; [exact H200 |]. split; [exact Hbody |]. split; [| split].
  - replace "/srv/hedwig/public/uploads/avatars/1700000000000-a.png"
      with (path.join [uploadDir demo_cwd;
                       pretty 1700000000000 +:+ "-" +:+ "a.png"])
      by (by vm_compute).
    rewrite Hbytes. by vm_compute.
  - etrans; [apply (Hkept (mkFile (Some "b.png") tmp2)) | by vm_compute].
    + by left.
    + by vm_compute.
    + intros name [= <-]. by vm_compute.
  - replace "/srv/hedwig/public/uploads/avatars/1700000000000-b.png"
      with (newPath_of demo_cwd 1700000000000 "b.png") by (by vm_compute).
    rewrite (Hnot (mkFile (Some "b.png") tmp2) "b.png").
    + by vm_compute.
    + by left.
    + done.
    + by vm_compute.
    + intros name [= <-]. by vm_compute.
Defined.

(** ** Two uploads of the same name *)

Lemma length_app_s a b :
  String.length (a +:+ b) = (String.length a + String.length b)%nat.
Proof.
  induction a as [|c a IH]; [done |]. rewrite app_String. simpl. by rewrite IH.
Qed.

Lemma app_inv_tail_s a b c : a +:+ c = b +:+ c → a = b.
Proof.
  revert b. induction a as [|x a IH]; intros [|y b] H.
  - done.
  - apply (f_equal String.length) in H. change ("" +:+ c) with c in H.
    rewrite app_String in H. simpl in H. rewrite length_app_s in H. lia.
  - apply (f_equal String.length) in H. change ("" +:+ c) with c in H.
    rewrite app_String in H. simpl in H. rewrite length_app_s in H. lia.
  - rewrite !app_String in H. injection H as -> H. f_equal. by apply IH.
Qed.

Lemma uniqueFilename_inj t1 t2 name :
  uniqueFilename_of t1 name = uniqueFilename_of t2 name → t1 = t2.
Proof.
  unfold uniqueFilename_of. intros H%app_inv_tail_s.
  by apply (inj pretty).
Qed.

Lemma norm_step_plain a st seg :
  String.eqb seg ".." = false →
  path.norm_step a st seg = if keep_segment seg then seg :: st else st.
Proof.
  intros H. unfold path.norm_step, keep_segment. rewrite H.
  by destruct (String.eqb seg "" || String.eqb seg ".").
Qed.

Lemma fold_norm_plain a l : ∀ st,
  forallb (λ s, negb (String.eqb s "..")) l = true →
  fold_left (path.norm_step a) l st = rev (List.filter keep_segment l) ++ st.
Proof.
  induction l as [|x l IH]; intros st; [done |]. simpl.
  intros [Hx Hl]%andb_true_iff. apply negb_true_iff in Hx.
  rewrite norm_step_plain, IH by done.
  destruct (keep_segment x); [| done]. simpl. by rewrite <- app_assoc.
Qed.

Lemma kept_clean l :
  forallb (λ s, negb (String.eqb s "..")) l = true →
  Forall (λ s, has_sep s = false) l →
  forallb clean_segment (List.filter keep_segment l) = true.
Proof.
  induction l as [|x l IH]; [done |]. simpl.
  intros [Hx Hl]%andb_true_iff Hall.
  inversion Hall as [|? ? Hsx Hsl]; subst.
  destruct (keep_segment x) eqn:Hk; [| by apply IH]. simpl.
  rewrite IH by done. rewrite andb_true_r.
  unfold clean_segment. unfold keep_segment in Hk.
  apply negb_true_iff, orb_false_elim in Hk as [-> ->].
  apply negb_true_iff in Hx. by rewrite Hx, Hsx.
Qed.

Lemma segments_prefix a b :
  has_sep a = false →
  path.segments (a +:+ b) =
    match path.segments b with
    | x :: r => (a +:+ x) :: r
    | [] => [a]
    end.
Proof.
  induction a as [|c a IH]; intros Ha.
  - change ("" +:+ b) with b. pose proof (segments_nonempty b).
    by destruct (path.segments b).
  - simpl in Ha. apply orb_false_elim in Ha as [Hc Ha].
    rewrite app_String. simpl. rewrite Hc, IH by done.
    pose proof (segments_nonempty b). by destruct (path.segments b).
Qed.

(** An absolute path normalises to the segments its loop keeps, with the
    trailing separator put back. *)
Lemma normalize_kept_gen p l :
  starts_with_sep p = true →
  fold_left (path.norm_step false) (path.segments p) [] = rev l →
  l ≠ [] → forallb clean_segment l = true →
  path.normalize p =
    "/" +:+ (if ends_with_sep p then path.join_sep l +:+ "/"
             else path.join_sep l).
Proof.
  intros Habs Hfold Hne Hclean. unfold path.normalize.
  destruct p as [|c p]; [done |]. cbn [str_falsy].
  unfold path.normalizeString. rewrite Habs. cbn [negb].
  rewrite Hfold, rev_involutive.
  by rewrite join_sep_truthy.
Qed.

(** The kept segments of the destination of an upload. *)
Lemma newPath_segments cwd t name n0 rest :
  abs_normalized cwd = true → name ≠ "" →
  path.segments name = n0 :: rest → no_dotdot name = true →
  let kept := upload_segments cwd ++
              uniqueFilename_of t n0 :: List.filter keep_segment rest in
  forallb clean_segment kept = true ∧
  newPath_of cwd t name =
    "/" +:+ (if ends_with_sep name then path.join_sep kept +:+ "/"
             else path.join_sep kept).
Proof.
  intros Hcwd Hname Hsegs Hdd kept.
  unfold no_dotdot in Hdd. rewrite Hsegs in Hdd. simpl in Hdd.
  pose proof (segments_sep_free name) as Hfree. rewrite Hsegs in Hfree.
  inversion Hfree as [|? ? Hn0 Hrest]; subst.
  assert (forallb clean_segment kept = true) as Hclean.
  { unfold kept. rewrite forallb_app, upload_segments_clean by done. simpl.
    by rewrite uniqueFilename_clean, kept_clean. }
  split; [done |].
  assert (path.segments (uniqueFilename_of t name)
          = uniqueFilename_of t n0 :: rest) as Hu.
  { unfold uniqueFilename_of.
    rewrite <- (app_assoc_s (pretty t) "-" name).
    rewrite segments_prefix, Hsegs
      by (by rewrite has_sep_app, pretty_Z_has_sep).
    by rewrite app_assoc_s. }
  assert (ends_with_sep (uploadDir cwd +:+ "/" +:+ uniqueFilename_of t name)
          = ends_with_sep name) as Htrail.
  { unfold uniqueFilename_of. destruct name as [|c name]; [done |].
    rewrite <- !app_assoc_s. by rewrite ends_with_sep_app. }
  unfold newPath_of. rewrite join_two.
  - rewrite (normalize_kept_gen _ kept), Htrail; [done | | | | done].
    + rewrite uploadDir_spec by done. reflexivity.
    + rewrite segments_app_sep, uploadDir_segments, Hu by done.
      rewrite fold_left_app. cbn [fold_left].
      change (path.norm_step false [] "") with (@nil string).
      rewrite (fold_norm_clean _ (upload_segments cwd))
        by (by apply upload_segments_clean).
      rewrite norm_step_clean by (by apply uniqueFilename_clean).
      rewrite fold_norm_plain by done.
      unfold kept. rewrite rev_app_distr. simpl.
      by rewrite app_nil_r, <- !app_assoc.
    + unfold kept. by destruct (upload_segments cwd).
  - by rewrite uploadDir_spec.
  - unfold uniqueFilename_of. pose proof (pretty_Z_truthy t).
    by destruct (pretty t).
Qed.

Lemma newPath_inj cwd t1 t2 name :
  abs_normalized cwd = true → name ≠ "" → no_dotdot name = true →
  newPath_of cwd t1 name = newPath_of cwd t2 name → t1 = t2.
Proof.
  intros Hcwd Hname Hdd.
  pose proof (segments_nonempty name) as Hne.
  destruct (path.segments name) as [|n0 rest] eqn:Hsegs; [done |].
  destruct (newPath_segments cwd t1 name n0 rest) as [Hc1 ->]; [done.. |].
  destruct (newPath_segments cwd t2 name n0 rest) as [Hc2 ->]; [done.. |].
  intros H%(inj (String.append _)).
  assert (path.join_sep
            (upload_segments cwd ++
             uniqueFilename_of t1 n0 :: List.filter keep_segment rest)
          = path.join_sep
            (upload_segments cwd ++
             uniqueFilename_of t2 n0 :: List.filter keep_segment rest)) as HJ.
  { destruct (ends_with_sep name); [by apply app_inv_tail_s in H | done]. }
  apply (f_equal path.segments) in HJ.
  rewrite !segments_join_sep in HJ
    by (try apply clean_segments_sep_free; try done;
        by destruct (upload_segments cwd)).
  apply app_inv_head in HJ. injection HJ as HJ.
  by apply uniqueFilename_inj in HJ.
Qed.

(** For an answered upload, status 200 means the rename went through. *)
Lemma serve_200_renamed cwd s t req name tmp :
  valid_upload req name tmp →
  statusCode (res (serve cwd s t req)) = 200 →
  renameSync tmp (newPath_of cwd t name) s = inr (disk (serve cwd s t req)).
Proof.
  intros Hv H200. rewrite (serve_upload _ _ _ _ name tmp) in H200 |- * by done.
  destruct (renameSync tmp (newPath_of cwd t name) s) as [e | s'] eqn:Hr;
    [| done].
  simpl in H200. by destruct (unlinkSync tmp s).
Qed.

(** C4 (counterexample). Two uploads of [x/../a.png] at distinct times are
    both answered with 200, under distinct generated names, but both land on
    [avatars/a.png]: the bytes of the first are replaced by the second. *)
Lemma C4_same_destination_twice :
  (1700000000000 ≠ 1700000000001) ∧
  statusCode (res (serve demo_cwd
     (demo_disk [(tmp1, "first bytes"); (tmp2, "second bytes")])
     1700000000000 (upload_of "x/../a.png" tmp1))) = 200 ∧
  statusCode (res (serve demo_cwd
     (disk (serve demo_cwd
        (demo_disk [(tmp1, "first bytes"); (tmp2, "second bytes")])
        1700000000000 (upload_of "x/../a.png" tmp1)))
     1700000000001 (upload_of "x/../a.png" tmp2))) = 200 ∧
  newPath_of demo_cwd 1700000000000 "x/../a.png"
    = "/srv/hedwig/public/uploads/avatars/a.png" ∧
  newPath_of demo_cwd 1700000000001 "x/../a.png"
    = "/srv/hedwig/public/uploads/avatars/a.png" ∧
  contents (disk (serve demo_cwd
     (demo_disk [(tmp1, "first bytes"); (tmp2, "second bytes")])
     1700000000000 (upload_of "x/../a.png" tmp1)))
    !! "/srv/hedwig/public/uploads/avatars/a.png" = Some "first bytes" ∧
  contents (serve_all demo_cwd
     (demo_disk [(tmp1, "first bytes"); (tmp2, "second bytes")])
     [(1700000000000, upload_of "x/../a.png" tmp1);
      (1700000000001, upload_of "x/../a.png" tmp2)])
    !! "/srv/hedwig/public/uploads/avatars/a.png" = Some "second bytes".
Proof. repeat split; try done; by vm_compute. Qed.

(** C4 (amended). Two uploads of the same original filename at distinct
    times, both answered with 200, get distinct generated names and distinct
    returned URLs. When no component of the filename after the first is
    [".."] (and the working directory is an absolute normalised path),
    their destination paths differ as well,
    and unless the second upload's temporary file is the first stored asset
    itself, both assets are on disk afterwards, each with the bytes of its
    own upload: the first is not overwritten. *)
Theorem C4_distinct_times_two_assets cwd s0 t1 t2 r1 r2 name old1 old2 :
  t1 ≠ t2 →
  valid_upload r1 name old1 → valid_upload r2 name old2 →
  statusCode (res (serve cwd s0 t1 r1)) = 200 →
  statusCode (res (serve cwd (disk (serve cwd s0 t1 r1)) t2 r2)) = 200 →
  uniqueFilename_of t1 name ≠ uniqueFilename_of t2 name ∧
  imageUrl_of t1 name ≠ imageUrl_of t2 name ∧
  (abs_normalized cwd = true → no_dotdot name = true →
   newPath_of cwd t1 name ≠ newPath_of cwd t2 name ∧
   (old2 ≠ newPath_of cwd t1 name →
    is_Some (contents s0 !! old1) ∧
    is_Some (contents (disk (serve cwd s0 t1 r1)) !! old2) ∧
    contents (serve_all cwd s0 [(t1, r1); (t2, r2)]) !! newPath_of cwd t1 name
      = contents s0 !! old1 ∧
    contents (serve_all cwd s0 [(t1, r1); (t2, r2)]) !! newPath_of cwd t2 name
      = contents (disk (serve cwd s0 t1 r1)) !! old2)).
Proof.
  intros Ht Hv1 Hv2 H1 H2.
  apply (serve_200_renamed _ _ _ _ name old1) in H1; [| done].
  apply (serve_200_renamed _ _ _ _ name old2) in H2; [| done].
  split; [by intros ?%uniqueFilename_inj |].
  split.
  { unfold imageUrl_of. by intros ?%(inj (String.append _))%uniqueFilename_inj. }
  intros Hcwd Hname. pose proof Hv1 as (_ & _ & _ & Hnonempty).
  assert (newPath_of cwd t1 name ≠ newPath_of cwd t2 name) as Hne
    by (by intros ?%newPath_inj).
  split; [done |]. intros Hold2. simpl.
  set (s1 := disk (serve cwd s0 t1 r1)) in *.
  set (s2 := disk (serve cwd s1 t2 r2)) in *.
  pose proof (renameSync_inr _ _ _ _ H1) as (b1 & Hb1 & _).
  pose proof (renameSync_inr _ _ _ _ H2) as (b2 & Hb2 & _).
  repeat split; [eauto | eauto | | by apply renameSync_moved].
  rewrite (renameSync_frame _ _ _ _ _ H2) by done.
  by apply renameSync_moved.
Qed.

Lemma C4_distinct_times_two_assets_witness :
  uniqueFilename_of 1700000000000 "a.png" ≠ uniqueFilename_of 1700000000001 "a.png" ∧
  newPath_of demo_cwd 1700000000000 "a.png"
    ≠ newPath_of demo_cwd 1700000000001 "a.png" ∧
  contents (serve_all demo_cwd
     (demo_disk [(tmp1, "first bytes"); (tmp2, "second bytes")])
     [(1700000000000, upload_of "a.png" tmp1);
      (1700000000001, upload_of "a.png" tmp2)])
    !! newPath_of demo_cwd 1700000000000 "a.png" = Some "first bytes".
Proof.
  assert (valid_upload (upload_of "a.png" tmp1) "a.png" tmp1) as Hv1
    by (by repeat split).
  assert (valid_upload (upload_of "a.png" tmp2) "a.png" tmp2) as Hv2
    by (by repeat split).
  destruct (C4_distinct_times_two_assets demo_cwd
     (demo_disk [(tmp1, "first bytes"); (tmp2, "second bytes")])
     1700000000000 1700000000001 _ _ "a.png" tmp1 tmp2
     ltac:(done) Hv1 Hv2 ltac:(by vm_compute) ltac:(by vm_compute))
    as (Hu & _ & Hrest).
  destruct (Hrest eq_refl eq_refl) as (Hp & Hboth).
  destruct (Hboth ltac:(by vm_compute)) as (_ & _ & Hfirst & _).
  split; [exact Hu |]. split; [exact Hp |].
  rewrite Hfirst. by vm_compute.
Defined.

(** ** Sequences of requests *)

Lemma serve_all_frame cwd reqs : ∀ s p,
  (∀ tr, tr ∈ reqs → p ∉ touched cwd tr) →
  contents (serve_all cwd s reqs) !! p = contents s !! p.
Proof.
  induction reqs as [|[t req] reqs IH]; intros s p Hp; [done |]. simpl.
  rewrite IH by (intros tr Htr; apply Hp; by right).
  apply serve_frame, Hp. by left.
Qed.

Lemma serve_all_dirs cwd reqs : ∀ s, dirs (serve_all cwd s reqs) = dirs s.
Proof.
  induction reqs as [|[t req] reqs IH]; intros s; [done |]. simpl.
  rewrite IH. apply serve_dirs.
Qed.

(** C8 (counterexample). Two uploads of [a.png] within the same millisecond
    get the same destination: the asset stored by the first request, which
    is not the second request's temporary file, is overwritten. *)
Lemma C8_stored_asset_overwritten :
  contents (disk (serve demo_cwd
     (demo_disk [(tmp1, "first bytes"); (tmp2, "second bytes")])
     1700000000000 (upload_of "a.png" tmp1)))
    !! "/srv/hedwig/public/uploads/avatars/1700000000000-a.png"
    = Some "first bytes" ∧
  tmp2 ≠ "/srv/hedwig/public/uploads/avatars/1700000000000-a.png" ∧
  contents (serve_all demo_cwd
     (demo_disk [(tmp1, "first bytes"); (tmp2, "second bytes")])
     [(1700000000000, upload_of "a.png" tmp1);
      (1700000000000, upload_of "a.png" tmp2)])
    !! "/srv/hedwig/public/uploads/avatars/1700000000000-a.png"
    = Some "second bytes".
Proof. repeat split; try done; by vm_compute. Qed.

(** C8 (amended). Over any sequence of requests, a path that is neither the
    temporary path nor the destination of one of them holds afterwards what
    it held before, and no directory is created or removed. For one request:
    if nothing exists at its destination, every file that exists, apart
    from the request's own temporary file, is still there with its bytes;
    and if a well-formed upload is not answered with 200, nothing but its
    own temporary file can have changed. *)
Theorem C8_changes_confined cwd s :
  (∀ reqs p,
     (∀ tr, tr ∈ reqs → p ∉ touched cwd tr) →
     contents (serve_all cwd s reqs) !! p = contents s !! p) ∧
  (∀ reqs, dirs (serve_all cwd s reqs) = dirs s) ∧
  (∀ t req p bytes,
     contents s !! p = Some bytes →
     (∀ name tmp, avatar_file req = Some (mkFile (Some name) tmp) →
                  p ≠ tmp ∧ contents s !! newPath_of cwd t name = None) →
     contents (disk (serve cwd s t req)) !! p = Some bytes) ∧
  (∀ t req name tmp p,
     valid_upload req name tmp →
     statusCode (res (serve cwd s t req)) ≠ 200 →
     p ≠ tmp →
     contents (disk (serve cwd s t req)) !! p = contents s !! p).
Proof.
  split; [intros reqs p; apply serve_all_frame |].
  split; [intros reqs; apply serve_all_dirs |].
  split.
  - intros t req p bytes Hp Hfree. rewrite <- Hp. apply serve_frame.
    unfold touched. simpl.
    destruct (avatar_file req) as [[[name|] tmp]|] eqn:Hf;
      try apply not_elem_of_nil.
    destruct (Hfree name tmp eq_refl) as [Htmp Hnone].
    repeat (apply not_elem_of_cons; split); [done | | apply not_elem_of_nil].
    intros ->. by rewrite Hnone in Hp.
  - intros t req name tmp p Hv Hst Hp.
    rewrite (serve_upload _ _ _ _ name tmp) in Hst |- * by done.
    destruct (renameSync tmp (newPath_of cwd t name) s) as [e | s'];
      [| done].
    simpl. destruct (unlinkSync tmp s) as [e' | s''] eqn:Hu; [done |].
    by apply (unlinkSync_frame tmp).
Qed.

Lemma C8_changes_confined_witness :
  contents (disk (serve demo_cwd
     (demo_disk [(tmp1, "new bytes");
                 ("/srv/hedwig/public/uploads/avatars/1600000000000-a.png",
                  "old bytes")])
     1700000000000 (upload_of "a.png" tmp1)))
    !! "/srv/hedwig/public/uploads/avatars/1600000000000-a.png"
    = Some "old bytes".
Proof.
  apply (proj1 (proj2 (proj2 (C8_changes_confined demo_cwd
     (demo_disk [(tmp1, "new bytes");
                 ("/srv/hedwig/public/uploads/avatars/1600000000000-a.png",
                  "old bytes")])))) 1700000000000 (upload_of "a.png" tmp1)).
  - by vm_compute.
  - intros name tmp [= <- <-]. split; [done | by vm_compute].
Defined.

(** ** The upload directory at load time *)

Lemma parent_dir_child base x :
  has_sep x = false →
  parent_dir (base +:+ "/" +:+ x) = if str_falsy base then "/" else base.
Proof.
  intros Hx. unfold parent_dir.
  rewrite segments_app_sep, (segments_nosep x), rev_app_distr by done. simpl.
  by rewrite rev_involutive, join_segments.
Qed.

Lemma child_truthy base x : str_falsy (base +:+ "/" +:+ x) = false.
Proof. by destruct base. Qed.

Lemma is_dir_mono s s' d :
  dirs s ⊆ dirs s' → is_dir s d = true → is_dir s' d = true.
Proof.
  unfold is_dir. intros Hsub [H | H]%orb_true_iff; apply orb_true_iff;
    [by left | right].
  apply bool_decide_eq_true. apply bool_decide_eq_true in H. set_solver.
Qed.

Lemma mkdir_fold_inl g l e : fold_left (mkdir_one g) l (inl e) = inl e.
Proof. by induction l. Qed.

Lemma mkdir_one_inr g s d s1 :
  mkdir_one g (inr s) d = inr s1 →
  is_dir s1 d = true ∧ contents s1 = contents s ∧
  readonly s1 = readonly s ∧ dirs s ⊆ dirs s1.
Proof.
  unfold mkdir_one. destruct (is_dir s d) eqn:Hd; [by intros [= <-] |].
  destruct (is_file s d); [done |].
  destruct (negb (is_dir s (parent_dir d))); [done |].
  destruct (negb (writable s (parent_dir d))); [done |].
  intros [= <-]. simpl. repeat split; [| set_solver].
  unfold is_dir. simpl. apply orb_true_iff. right.
  apply bool_decide_eq_true. set_solver.
Qed.

Lemma mkdir_fold_inr g l : ∀ s s',
  fold_left (mkdir_one g) l (inr s) = inr s' →
  (∀ d, d ∈ l → is_dir s' d = true) ∧ contents s' = contents s ∧
  readonly s' = readonly s ∧ dirs s ⊆ dirs s'.
Proof.
  induction l as [|x l IH]; intros s s' H; cbn [fold_left] in H.
  - injection H as <-. repeat split; [| done]. intros d Hd. by inversion Hd.
  - destruct (mkdir_one g (inr s) x) as [e | s1] eqn:H1;
      [by rewrite mkdir_fold_inl in H |].
    apply mkdir_one_inr in H1 as (Hx & Hc & Hro & Hsub).
    apply IH in H as (Hall & Hc' & Hro' & Hsub').
    repeat split; [| congruence | congruence | by etrans].
    intros d [-> | Hd]%elem_of_cons; [| by apply Hall].
    by apply (is_dir_mono s1).
Qed.

(** With no file in the way and no read-only parent, the walk succeeds. *)
Lemma mkdir_descend_ok g segs : ∀ base s,
  Forall (λ x, has_sep x = false) segs →
  is_dir s (if str_falsy base then "/" else base) = true →
  (∀ d, d ∈ descend base segs →
        contents s !! d = None ∧ parent_dir d ∉ readonly s) →
  ∃ s', fold_left (mkdir_one g) (descend base segs) (inr s) = inr s'.
Proof.
  induction segs as [|x segs IH]; intros base s Hsegs Hbase Hfree;
    [by exists s |].
  inversion Hsegs as [|? ? Hx Hrest]; subst. cbn [descend fold_left].
  destruct (Hfree (base +:+ "/" +:+ x)) as [Hnone Hw]; [by left |].
  rewrite parent_dir_child in Hw by done.
  assert (∃ s1, mkdir_one g (inr s) (base +:+ "/" +:+ x) = inr s1)
    as [s1 H1].
  { unfold mkdir_one.
    destruct (is_dir s (base +:+ "/" +:+ x)); [by eexists |].
    unfold is_file. rewrite Hnone. simpl.
    rewrite parent_dir_child, Hbase by done. simpl.
    unfold writable. rewrite bool_decide_eq_true_2 by done. simpl.
    by eexists. }
  rewrite H1. pose proof (mkdir_one_inr _ _ _ _ H1) as (Hd & Hc & Hro & _).
  apply IH; [done | by rewrite child_truthy |].
  intros d Hin. rewrite Hc, Hro. apply Hfree. by right.
Qed.

Lemma descend_last base l :
  l ≠ [] → base +:+ "/" +:+ path.join_sep l ∈ descend base l.
Proof.
  revert base. induction l as [|x l IH]; intros base Hne; [done |].
  destruct l as [|y l]; [by left |]. right.
  rewrite join_sep_cons by done.
  replace (base +:+ "/" +:+ x +:+ "/" +:+ path.join_sep (y :: l))
    with ((base +:+ "/" +:+ x) +:+ "/" +:+ path.join_sep (y :: l))
    by (by rewrite !app_assoc_s).
  by apply IH.
Qed.

Lemma filter_clean l :
  forallb clean_segment l = true →
  List.filter (λ a, negb (str_falsy a)) l = l.
Proof.
  induction l as [|x l IH]; [done |]. simpl.
  intros [Hx Hl]%andb_true_iff. apply clean_segment_spec in Hx as (Hx & _).
  destruct x; [done |]. simpl. by rewrite IH.
Qed.

Lemma ancestors_uploadDir cwd :
  abs_normalized cwd = true →
  ancestors (uploadDir cwd) = descend "" (upload_segments cwd).
Proof.
  intros H. unfold ancestors. rewrite uploadDir_segments by done. simpl.
  by rewrite filter_clean by (by apply upload_segments_clean).
Qed.

Lemma uploadDir_in_ancestors cwd :
  abs_normalized cwd = true → uploadDir cwd ∈ ancestors (uploadDir cwd).
Proof.
  intros H. rewrite ancestors_uploadDir by done.
  rewrite (uploadDir_spec cwd) at 1 by done.
  apply (descend_last ""), upload_segments_nonempty.
Qed.

Lemma module_init_run cwd w :
  module_init cwd w =
    if existsSync (uploadDir cwd) (disk w) then (inr (), w)
    else match mkdirSync_recursive (uploadDir cwd) (disk w) with
         | inl e => (inl (FsError e), w)
         | inr s' => (inr (), mkWorld s' (clock w) (console w) (res w))
         end.
Proof.
  unfold module_init, mbind, Js_bind, mret, Js_ret, fs_read, fs_call. simpl.
  by destruct (existsSync (uploadDir cwd) (disk w)).
Qed.

(** C7 (counterexample). With the upload directory missing when a
    well-formed upload arrives, the handler does not create it: the request
    is answered with 500 and the directory is still missing afterwards,
    whereas loading the module on the same disk does create it. *)
Lemma C7_handler_leaves_directory_missing :
  valid_upload (upload_of "me.png" tmp1) "me.png" tmp1 ∧
  existsSync (uploadDir demo_cwd) pruned_disk = false ∧
  statusCode (res (serve demo_cwd pruned_disk 1700000000000
                     (upload_of "me.png" tmp1))) = 500 ∧
  existsSync (uploadDir demo_cwd)
    (disk (serve demo_cwd pruned_disk 1700000000000
             (upload_of "me.png" tmp1))) = false ∧
  is_dir (disk (snd (module_init demo_cwd (at_load pruned_disk))))
    (uploadDir demo_cwd) = true.
Proof. repeat split; try done; by vm_compute. Qed.

(** C7 (amended). The destination directory is ensured when the module is
    loaded, not by the handler. Loading does nothing when the path already
    exists; otherwise it creates the directory and every missing directory
    above it, and this succeeds whenever no regular file sits on the way
    and no parent on the way is read-only. A load that returns leaves the
    path existing, keeps all files and directories, and can be repeated
    without effect. The handler never creates a directory, and an upload is
    answered with 200 only if the directory holding its destination
    exists. *)
Theorem C7_directory_made_at_load cwd :
  abs_normalized cwd = true →
  (∀ w, existsSync (uploadDir cwd) (disk w) = true →
        module_init cwd w = (inr (), w)) ∧
  (∀ w, (∀ d, d ∈ ancestors (uploadDir cwd) →
              contents (disk w) !! d = None ∧
              parent_dir d ∉ readonly (disk w)) →
        ∃ w', module_init cwd w = (inr (), w') ∧
              is_dir (disk w') (uploadDir cwd) = true ∧
              (existsSync (uploadDir cwd) (disk w) = false →
               ∀ d, d ∈ ancestors (uploadDir cwd) → is_dir (disk w') d = true)) ∧
  (∀ w w', module_init cwd w = (inr (), w') →
           existsSync (uploadDir cwd) (disk w') = true ∧
           contents (disk w') = contents (disk w) ∧
           dirs (disk w) ⊆ dirs (disk w') ∧
           module_init cwd w' = (inr (), w')) ∧
  (∀ s t req, dirs (disk (serve cwd s t req)) = dirs s) ∧
  (∀ s t req name tmp,
     valid_upload req name tmp →
     statusCode (res (serve cwd s t req)) = 200 →
     is_dir s (parent_dir (newPath_of cwd t name)) = true).
Proof.
  intros Hcwd.
  assert (∀ w, existsSync (uploadDir cwd) (disk w) = true →
               module_init cwd w = (inr (), w)) as Hskip.
  { intros w He. by rewrite module_init_run, He. }
  split; [exact Hskip |]. split; [| split; [| split]].
  - intros w Hfree. rewrite module_init_run.
    destruct (existsSync (uploadDir cwd) (disk w)) eqn:He.
    + exists w. split; [done |]. split; [| done].
      unfold existsSync, is_file in He.
      destruct (Hfree _ (uploadDir_in_ancestors cwd Hcwd)) as [Hnone _].
      by rewrite Hnone in He.
    + unfold mkdirSync_recursive. cbv zeta.
      rewrite ancestors_uploadDir by done.
      destruct (mkdir_descend_ok
                  (List.last (descend "" (upload_segments cwd)) (uploadDir cwd))
                  (upload_segments cwd) "" (disk w))
        as [s' Hs'].
      * by apply clean_segments_sep_free, upload_segments_clean.
      * done.
      * by rewrite <- ancestors_uploadDir.
      * rewrite Hs'. eexists. split; [done |]. simpl.
        apply mkdir_fold_inr in Hs' as (Hall & _).
        split; [| done].
        apply Hall. rewrite <- ancestors_uploadDir by done.
        by apply uploadDir_in_ancestors.
  - intros w w' Hrun. rewrite module_init_run in Hrun.
    destruct (existsSync (uploadDir cwd) (disk w)) eqn:He.
    + injection Hrun as <-.
      split; [done |]. split; [done |]. split; [done | by apply Hskip].
    + destruct (mkdirSync_recursive (uploadDir cwd) (disk w))
        as [e | s'] eqn:Hmk; [done |].
      injection Hrun as <-. simpl.
      apply mkdir_fold_inr in Hmk as (Hall & Hc & _ & Hsub).
      assert (existsSync (uploadDir cwd) s' = true) as He'.
      { unfold existsSync. apply orb_true_iff. right.
        by apply Hall, uploadDir_in_ancestors. }
      split; [done |]. split; [done |]. split; [done | by apply Hskip].
  - intros s t req. apply serve_dirs.
  - intros s t req name tmp Hv H200.
    apply (serve_200_renamed _ _ _ _ name tmp) in H200; [| done].
    by apply renameSync_inr in H200 as (bytes & _ & Hdir & _).
Qed.

Lemma C7_directory_made_at_load_witness :
  abs_normalized demo_cwd = true ∧
  ∃ w', module_init demo_cwd (at_load pruned_disk) = (inr (), w') ∧
        is_dir (disk w') (uploadDir demo_cwd) = true.
Proof.
  split; [reflexivity |].
  destruct (proj1 (proj2 (C7_directory_made_at_load demo_cwd eq_refl))
              (at_load pruned_disk)) as (w' & Hrun & Hdir & _).
  - intros d Hd. vm_compute in Hd.
    repeat (apply elem_of_cons in Hd as [-> | Hd]; [by vm_compute |]).
    by apply elem_of_nil in Hd.
  - by exists w'.
Defined.


(** ** The matcher *)

Lemma rep_true c min at0 s k :
  regexp.rep c min at0 s k = true ↔
  ∃ pre rest, s = pre ++ rest ∧ forallb c pre = true ∧
              (min ≤ length pre)%nat ∧ k (after at0 pre) rest = true.
Proof.
  revert min at0. induction s as [|x s IH]; intros min at0; simpl.
  - rewrite andb_true_iff, Nat.eqb_eq. split.
    + intros [-> Hk]. by exists [], [].
    + intros (pre & rest & Hs & _ & Hmin & Hk).
      symmetry in Hs. apply app_eq_nil in Hs as [-> ->].
      simpl in *. split; [lia | done].
  - rewrite orb_true_iff, !andb_true_iff, Nat.eqb_eq, IH. split.
    + intros [[Hx (pre & rest & -> & Hall & Hmin & Hk)] | [-> Hk]].
      * exists (x :: pre), rest. simpl. rewrite Hx, Hall.
        repeat split; [lia |]. by destruct pre.
      * by exists [], (x :: s).
    + intros (pre & rest & Hs & Hall & Hmin & Hk).
      destruct pre as [|y pre]; simpl in *.
      * right. subst rest. split; [lia | done].
      * injection Hs as <- ->. apply andb_true_iff in Hall as [Hx Hall].
        left. split; [done |]. exists pre, rest.
        repeat split; [done | lia |]. by destruct pre.
Qed.

Lemma search_true r at0 s :
  regexp.search r at0 s = true ↔
  ∃ pre rest, s = pre ++ rest ∧
              regexp.run r (after at0 pre) rest (λ _ _, true) = true.
Proof.
  revert at0. induction s as [|x s IH]; intros at0; simpl.
  - rewrite orb_false_r. split.
    + intros H. by exists [], [].
    + intros (pre & rest & Hs & H).
      symmetry in Hs. by apply app_eq_nil in Hs as [-> ->].
  - rewrite orb_true_iff, IH. split.
    + intros [H | (pre & rest & -> & H)].
      * by exists [], (x :: s).
      * exists (x :: pre), rest. split; [done |]. by destruct pre.
    + intros (pre & rest & Hs & H). destruct pre as [|y pre]; simpl in *.
      * left. by subst rest.
      * injection Hs as <- ->. right. exists pre, rest.
        split; [done |]. by destruct pre.
Qed.

(** A pattern that starts with [^] can only match at the start. *)
Lemma test_anchored r s :
  regexp.test (regexp.Seq regexp.Bol r) s
  = regexp.run r true s (λ _ _, true).
Proof.
  unfold regexp.test.
  assert (∀ s, regexp.search (regexp.Seq regexp.Bol r) false s = false) as Hno.
  { intros s'. induction s' as [|x s' IH]; simpl; [done | exact IH]. }
  destruct s as [|x s]; simpl; [by rewrite orb_false_r |].
  by rewrite Hno, orb_false_r.
Qed.

(** ** The validators *)

Lemma nonempty_length {A} (l : list A) : l ≠ [] ↔ (1 ≤ length l)%nat.
Proof. destruct l; simpl; split; (done || lia). Qed.

Lemma validateEmail_shape s :
  validateEmail s = true ↔
  ∃ l d t, s = l ++ 64%N :: d ++ 46%N :: t ∧
           l ≠ [] ∧ forallb email_local l = true ∧
           d ≠ [] ∧ forallb email_domain d = true ∧
           (2 ≤ length t)%nat ∧ forallb letter t = true.
Proof.
  unfold validateEmail, email_pattern. cbn [regexp.cat fold_right].
  rewrite test_anchored. cbn [regexp.run]. rewrite rep_true. split.
  - intros (l & r1 & -> & Hl & Hnl & Hk).
    destruct r1 as [|x r1]; [done |].
    apply andb_true_iff in Hk as [Hx Hk]. apply N.eqb_eq in Hx as <-.
    apply rep_true in Hk as (d & r2 & -> & Hd & Hnd & Hk).
    destruct r2 as [|y r2]; [done |].
    apply andb_true_iff in Hk as [Hy Hk]. apply N.eqb_eq in Hy as <-.
    apply rep_true in Hk as (t & r3 & -> & Ht & Hnt & Hk).
    destruct r3 as [|z r3]; [| done].
    exists l, d, t. rewrite app_nil_r.
    by rewrite !nonempty_length.
  - intros (l & d & t & -> & Hnl & Hl & Hnd & Hd & Hnt & Ht).
    apply nonempty_length in Hnl, Hnd.
    exists l, (64%N :: d ++ 46%N :: t). repeat split; try done.
    rewrite N.eqb_refl. cbn [andb]. apply rep_true.
    exists d, (46%N :: t). repeat split; try done.
    rewrite N.eqb_refl. cbn [andb]. apply rep_true.
    exists t, []. by rewrite app_nil_r.
Qed.

Lemma count_outside (c : N → bool) (x : N) (l : list N) :
  c x = false → forallb c l = true → count_occ N.eq_dec l x = 0%nat.
Proof.
  intros Hx. induction l as [|y l IH]; simpl; [done |].
  intros [Hy Hl]%andb_true_iff. destruct (N.eq_dec y x) as [-> | _];
    [congruence | auto].
Qed.

Lemma forallb_weaken {A} (c d : A → bool) (l : list A) :
  (∀ x, c x = true → d x = true) → forallb c l = true → forallb d l = true.
Proof.
  intros Hcd. induction l as [|x l IH]; simpl; [done |].
  intros [Hx Hl]%andb_true_iff. by rewrite Hcd, IH.
Qed.

Lemma letter_local c : letter c = true → email_local c = true.
Proof. unfold email_local. by intros ->. Qed.

Lemma domain_local c : email_domain c = true → email_local c = true.
Proof.
  unfold email_domain, email_local, regexp.one_of. simpl.
  destruct (letter c), (digit c), (N.eqb c 46), (N.eqb c 45); simpl;
    rewrite ?orb_true_r; done.
Qed.

(** X7. [validateEmail] accepts exactly the strings of the form
    [local@domain.tld] in which [local] is a non-empty run of letters,
    digits and [._%+-], [domain] a non-empty run of letters, digits, dots
    and dashes, and [tld] two or more letters. *)
Theorem validateEmail_accepts_exactly s :
  validateEmail s = true ↔
  ∃ l d t, s = l ++ 64%N :: d ++ 46%N :: t ∧
           l ≠ [] ∧ forallb email_local l = true ∧
           d ≠ [] ∧ forallb email_domain d = true ∧
           (2 ≤ length t)%nat ∧ forallb letter t = true.
Proof. apply validateEmail_shape. Qed.

Lemma validateEmail_accepts_exactly_witness :
  validateEmail (units "jan.kowalski@example.com") = true ∧
  validateEmail (units "jan@example") = false.
Proof.
  split.
  - apply validateEmail_accepts_exactly.
    exists (units "jan.kowalski"), (units "example"), (units "com").
    repeat split; try (by vm_compute); vm_compute; lia.
  - by vm_compute.
Defined.

(** X8. An address [validateEmail] accepts holds exactly one ['@'], and
    each of its other units is an ASCII letter, a digit or one of
    [._%+-]: no white space and no character outside ASCII gets through. *)
Theorem validateEmail_one_at s :
  validateEmail s = true →
  count_occ N.eq_dec s 64%N = 1%nat ∧
  forallb (λ c, N.eqb c 64 || email_local c) s = true.
Proof.
  intros (l & d & t & -> & _ & Hl & _ & Hd & _ & Ht)%validateEmail_shape.
  split.
  - rewrite count_occ_app, (count_outside email_local) by done. simpl.
    rewrite count_occ_app, (count_outside email_domain) by done. simpl.
    by rewrite (count_outside letter).
  - rewrite forallb_app. simpl. rewrite forallb_app. simpl.
    rewrite (forallb_weaken email_local _ l), (forallb_weaken email_domain _ d),
      (forallb_weaken letter _ t); try done.
    + intros x Hx. by rewrite letter_local, orb_true_r.
    + intros x Hx. by rewrite domain_local, orb_true_r.
    + intros x ->. by rewrite orb_true_r.
Qed.

Lemma validateEmail_one_at_witness :
  validateEmail (units "a.b+c@mail.example.org") = true ∧
  count_occ N.eq_dec (units "a.b+c@mail.example.org") 64%N = 1%nat.
Proof.
  split; [by vm_compute |].
  apply (validateEmail_one_at (units "a.b+c@mail.example.org")).
  by vm_compute.
Defined.

(** The lookahead [(?=.*[c])]: some unit of class [c] lies ahead, with no
    line terminator before it. *)
Lemma lookahead_true c at0 s :
  regexp.run (regexp.cat [regexp.Rep regexp.dot 0; regexp.Cls c]) at0 s
    (λ _ _, true) = true ↔
  ∃ pre x post, s = pre ++ x :: post ∧ forallb regexp.dot pre = true ∧
                c x = true.
Proof.
  cbn [regexp.cat fold_right regexp.run]. rewrite rep_true. split.
  - intros (pre & rest & -> & Hpre & _ & Hk).
    destruct rest as [|x post]; [done |].
    rewrite andb_true_r in Hk. by exists pre, x, post.
  - intros (pre & x & post & -> & Hpre & Hx).
    exists pre, (x :: post). repeat split; [done | lia |].
    by rewrite Hx.
Qed.

Lemma existsb_split {A} (c : A → bool) (l : list A) :
  existsb c l = true ↔ ∃ pre x post, l = pre ++ x :: post ∧ c x = true.
Proof.
  split.
  - intros (x & Hin & Hx)%existsb_exists.
    apply in_split in Hin as (pre & post & ->). by exists pre, x, post.
  - intros (pre & x & post & -> & Hx). apply existsb_exists.
    exists x. split; [| done]. apply in_or_app. right. by left.
Qed.

Lemma password_char_dot c : password_char c = true → regexp.dot c = true.
Proof.
  unfold regexp.dot, regexp.one_of. simpl. intros Hc.
  destruct (N.eqb_spec c 10) as [-> | _]; [done |].
  destruct (N.eqb_spec c 13) as [-> | _]; [done |].
  destruct (N.eqb_spec c 8232) as [-> | _]; [done |].
  by destruct (N.eqb_spec c 8233) as [-> | _].
Qed.

Lemma validatePassword_shape s :
  validatePassword s = true ↔
  (8 ≤ length s)%nat ∧ forallb password_char s = true ∧
  existsb letter s = true ∧ existsb digit s = true.
Proof.
  unfold validatePassword, password_pattern.
  cbn [regexp.cat fold_right]. rewrite test_anchored.
  change (regexp.run ?r true s (λ _ _, true))
    with (regexp.run
            (regexp.cat [regexp.Rep regexp.dot 0; regexp.Cls letter]) true s
            (λ _ _, true) &&
          (regexp.run
             (regexp.cat [regexp.Rep regexp.dot 0; regexp.Cls digit]) true s
             (λ _ _, true) &&
           regexp.rep password_char 8 true s
             (λ _ s', match s' with [] => true | _ :: _ => false end))).
  rewrite !andb_true_iff, !lookahead_true, rep_true, !existsb_split. split.
  - intros ((p1 & x1 & q1 & H1 & _ & Hx1) & (p2 & x2 & q2 & H2 & _ & Hx2) &
            (pre & rest & Hs & Hall & Hlen & Hk)).
    destruct rest as [|y rest]; [| done]. rewrite app_nil_r in Hs. subst pre.
    repeat split; eauto 6.
  - intros (Hlen & Hall & (p1 & x1 & q1 & H1 & Hx1) & (p2 & x2 & q2 & H2 & Hx2)).
    assert (∀ p x q, s = p ++ x :: q → forallb regexp.dot p = true) as Hdot.
    { intros p x q Hs. rewrite Hs, forallb_app in Hall.
      apply andb_true_iff in Hall as [Hp _].
      by apply (forallb_weaken password_char), Hp; apply password_char_dot. }
    repeat split.
    + exists p1, x1, q1. eauto.
    + exists p2, x2, q2. eauto.
    + exists s, []. by rewrite app_nil_r.
Qed.

(** X9. [validatePassword] accepts exactly the strings of eight or more
    units, all of them ASCII letters, digits or one of [@$!%*#?&], with at
    least one letter and at least one digit among them; there is no upper
    bound on the length. *)
Theorem validatePassword_accepts_exactly s :
  validatePassword s = true ↔
  (8 ≤ length s)%nat ∧ forallb password_char s = true ∧
  existsb letter s = true ∧ existsb digit s = true.
Proof. apply validatePassword_shape. Qed.

Lemma validatePassword_accepts_exactly_witness :
  validatePassword (units "haslo123") = true ∧
  validatePassword (units "haslo12") = false ∧
  validatePassword (units "haslo 1234") = false.
Proof.
  split.
  - apply validatePassword_accepts_exactly.
    repeat split; try (by vm_compute); vm_compute; lia.
  - split; by vm_compute.
Defined.

(** X10. No string passes both [validateEmail] and [validatePassword]: an
    address always holds a dot, which a password may not. *)
Theorem email_is_no_password s :
  validateEmail s = true → validatePassword s = false.
Proof.
  intros (l & d & t & -> & _)%validateEmail_shape.
  apply not_true_is_false. intros (_ & Hall & _)%validatePassword_shape.
  rewrite forallb_forall in Hall. specialize (Hall 46%N).
  assert (password_char 46 = true); [| done].
  apply Hall, in_or_app. right. right. apply in_or_app. right. by left.
Qed.

Lemma email_is_no_password_witness :
  validateEmail (units "haslo123@example.com") = true ∧
  validatePassword (units "haslo123@example.com") = false.
Proof.
  split; [by vm_compute |].
  apply (email_is_no_password (units "haslo123@example.com")).
  by vm_compute.
Defined.

Lemma validateFullname_shape s :
  validateFullname s = true ↔
  ∃ pre u1 l1 w u2 l2 post,
    s = pre ++ u1 :: l1 ++ w :: u2 :: l2 ++ post ∧
    name_upper u1 = true ∧ l1 ≠ [] ∧ forallb name_letter l1 = true ∧
    regexp.space w = true ∧
    name_upper u2 = true ∧ l2 ≠ [] ∧ forallb name_letter l2 = true.
Proof.
  unfold validateFullname, fullname_pattern, regexp.test.
  cbn [regexp.cat fold_right]. rewrite search_true. split.
  - intros (pre & rest & -> & H). cbn [regexp.run] in H.
    destruct rest as [|u1 rest]; [done |].
    apply andb_true_iff in H as [Hu1 H].
    apply rep_true in H as (l1 & r1 & -> & Hl1 & Hn1 & H).
    destruct r1 as [|w r1]; [done |].
    apply andb_true_iff in H as [Hw H].
    destruct r1 as [|u2 r1]; [done |].
    apply andb_true_iff in H as [Hu2 H].
    apply rep_true in H as (l2 & post & -> & Hl2 & Hn2 & _).
    exists pre, u1, l1, w, u2, l2, post.
    by rewrite !nonempty_length.
  - intros (pre & u1 & l1 & w & u2 & l2 & post & -> &
            Hu1 & Hn1 & Hl1 & Hw & Hu2 & Hn2 & Hl2).
    apply nonempty_length in Hn1, Hn2.
    exists pre, (u1 :: l1 ++ w :: u2 :: l2 ++ post). split; [done |].
    cbn [regexp.run]. rewrite Hu1. cbn [andb]. apply rep_true.
    exists l1, (w :: u2 :: l2 ++ post). repeat split; try done.
    rewrite Hw, Hu2. cbn [andb]. apply rep_true.
    by exists l2, post.
Qed.

(** X11. [validateFullname] accepts exactly the strings that contain,
    anywhere, an upper-case letter followed by one or more letters, one
    white-space unit, and again an upper-case letter followed by one or more
    letters (Polish letters included). *)
Theorem validateFullname_accepts_exactly s :
  validateFullname s = true ↔
  ∃ pre u1 l1 w u2 l2 post,
    s = pre ++ u1 :: l1 ++ w :: u2 :: l2 ++ post ∧
    name_upper u1 = true ∧ l1 ≠ [] ∧ forallb name_letter l1 = true ∧
    regexp.space w = true ∧
    name_upper u2 = true ∧ l2 ≠ [] ∧ forallb name_letter l2 = true.
Proof. apply validateFullname_shape. Qed.

Lemma validateFullname_accepts_exactly_witness :
  validateFullname (units "Jan Kowalski") = true ∧
  validateFullname (units "J Kowalski") = false ∧
  validateFullname (units "jan kowalski") = false.
Proof.
  split.
  - apply validateFullname_accepts_exactly.
    exists [], 74%N, (units "an"), 32%N, 75%N, (units "owalski"), [].
    repeat split; by vm_compute.
  - split; by vm_compute.
Defined.

(** X12. The pattern of [validateFullname] is not anchored: whatever is put
    before or after an accepted string, the result is accepted too, so
    digits or punctuation around a name do not make it fail. *)
Theorem validateFullname_ignores_context s before behind :
  validateFullname s = true →
  validateFullname (before ++ s ++ behind) = true.
Proof.
  intros (pre & u1 & l1 & w & u2 & l2 & post & -> & H)%validateFullname_shape.
  apply validateFullname_shape.
  exists (before ++ pre), u1, l1, w, u2, l2, (post ++ behind).
  split; [| done].
  rewrite <- !app_assoc. simpl. f_equal. f_equal. rewrite <- app_assoc.
  simpl. f_equal. f_equal. f_equal. by rewrite <- app_assoc.
Qed.

Lemma validateFullname_ignores_context_witness :
  validateFullname (units "Jan Kowalski") = true ∧
  validateFullname (units "123 " ++ units "Jan Kowalski" ++ units "!!!") = true.
Proof.
  split; [by vm_compute |].
  apply (validateFullname_ignores_context (units "Jan Kowalski")).
  by vm_compute.
Defined.

(** ** More on the route of [pages/api/upload-avatar.js] *)

Lemma console_grows (l l' : list (string * Exn)) x : l ++ x :: l' ≠ l.
Proof.
  intros H. apply (f_equal length) in H.
  rewrite length_app in H. simpl in H. lia.
Qed.

(** X1. Each run of the callback given to [form.parse], whatever the parser
    hands it and whatever the disk holds, returns without throwing and
    sends exactly one JSON body. The body carries an [imageUrl] exactly
    when the status is 200; with 400 it carries an error, nothing is logged
    and the callback itself has changed nothing on the disk it was started
    on; with 500 it carries an error and something is logged. A request
    whose method is not POST is answered the same way with 405 and the
    [Allow] header, without the parser being started. *)
Theorem callback_answers_once cwd :
  (∀ e flds fls w,
     ∃ w' body, on_parsed cwd e flds fls w = (inr (), w') ∧
       jsonBody (res w') = jsonBody (res w) ++ [body] ∧
       headers (res w') = headers (res w) ∧
       ((statusCode (res w') = 200 ∧ (∃ url, body = [("imageUrl", url)]) ∧
         console w' = console w) ∨
        (statusCode (res w') = 400 ∧ (∃ msg, body = [("error", msg)]) ∧
         console w' = console w ∧ disk w' = disk w) ∨
        (statusCode (res w') = 500 ∧ (∃ msg, body = [("error", msg)]) ∧
         console w' ≠ console w))) ∧
  (∀ arrays method body w,
     method ≠ "POST" →
     handler_on_body arrays cwd method body w
     = (inr (),
        mkWorld (disk w) (clock w) (console w)
          (mkRes (headers (res w) ++ [("Allow", ["POST"])]) 405
             (jsonBody (res w) ++ [[("error", "Method not allowed")]])))).
Proof.
  split.
  - intros e flds fls w. run_js.
    destruct e as [e|].
    { do 2 eexists. split; [done |]. simpl. split; [done |]. split; [done |].
      right; right. split; [done |]. split; [by eauto |].
      apply console_grows. }
    destruct (fls !! "avatar") as [file|];
      [| do 2 eexists; split; [done |]; simpl; eauto 10].
    destruct (first_file file) as [[[name|] tmp]|];
      try (do 2 eexists; split; [done |]; simpl; eauto 10).
    destruct name as [|c name];
      [do 2 eexists; split; [done |]; simpl; eauto 10 |]. simpl.
    destruct (renameSync _ _ (disk w)) as [e | s']; simpl;
      [| do 2 eexists; split; [done |]; simpl; eauto 10].
    destruct (unlinkSync tmp (disk w)) as [e' | s'']; simpl;
      (do 2 eexists; split; [done |]; simpl; split; [done |]; split; [done |];
       right; right; split; [done |]; split; [by eauto |]).
    + rewrite <- app_assoc. apply console_grows.
    + apply console_grows.
  - intros arrays method body w Hm. unfold handler_on_body.
    apply String.eqb_neq in Hm. rewrite Hm. by run_js.
Qed.






Lemma newPath_plain cwd t name :
  abs_normalized cwd = true → name ≠ "" → has_sep name = false →
  newPath_of cwd t name = uploadDir cwd +:+ "/" +:+ uniqueFilename_of t name.
Proof.
  intros Hcwd Hne Hsep.
  assert (no_dotdot name = true) as Hdd
    by (unfold no_dotdot; by rewrite segments_nosep).
  pose proof (newPath_segments cwd t name name [] Hcwd Hne
                (segments_nosep name Hsep) Hdd) as [_ ->].
  rewrite ends_with_sep_nosep by done. simpl.
  rewrite join_sep_snoc by apply upload_segments_nonempty.
  rewrite (uploadDir_spec cwd) by done. by rewrite !app_assoc_s.
Qed.

Lemma no_file_on_the_way s l :
  (∀ d, d ∈ l → contents s !! d = None) → existsb (is_file s) l = false.
Proof.
  induction l as [|x l IH]; intros H; [done |]. simpl.
  unfold is_file at 1. rewrite (H x) by (by left). simpl.
  apply IH. intros d Hd. apply H. by right.
Qed.

(** The rename of a plain-named upload goes through when nothing is in
    its way. *)
Lemma rename_plain_ok cwd s t name tmp bytes :
  abs_normalized cwd = true → name ≠ "" → has_sep name = false →
  path_refused tmp = None → path_refused (newPath_of cwd t name) = None →
  contents s !! tmp = Some bytes →
  is_dir s (uploadDir cwd) = true →
  (∀ d, d ∈ ancestors (uploadDir cwd) → contents s !! d = None) →
  uploadDir cwd ∉ readonly s → parent_dir tmp ∉ readonly s →
  newPath_of cwd t name ∉ dirs s →
  renameSync tmp (newPath_of cwd t name) s
    = inr (mkFS (<[newPath_of cwd t name := bytes]> (delete tmp (contents s)))
                (dirs s) (readonly s)).
Proof.
  intros Hcwd Hne Hsep Hold Hnew Htmp Hdir Hway Hw1 Hw2 Hnd.
  pose proof (newPath_plain cwd t name Hcwd Hne Hsep) as Hpath.
  unfold renameSync, file_on_the_way. rewrite Hold, Hnew, Htmp, Hpath.
  assert (has_sep (uniqueFilename_of t name) = false) as Hu
    by (by apply clean_segment_spec, uniqueFilename_clean).
  assert (ends_with_sep (uploadDir cwd +:+ "/" +:+ uniqueFilename_of t name)
          = false) as ->.
  { pose proof (uniqueFilename_clean t name Hsep) as Hc.
    apply clean_segment_spec in Hc as (Hc & _).
    destruct (uniqueFilename_of t name) as [|c u] eqn:Eu; [done |].
    change ("/" +:+ String c u) with (String "/" (String c u)).
    rewrite ends_with_sep_app.
    change (ends_with_sep (String "/" (String c u)))
      with (ends_with_sep (String c u)).
    by apply ends_with_sep_nosep. }
  rewrite parent_dir_child by done.
  assert (str_falsy (uploadDir cwd) = false) as ->
    by (by rewrite uploadDir_spec).
  rewrite (no_file_on_the_way s _ Hway), Hdir. simpl.
  assert (is_dir s (uploadDir cwd +:+ "/" +:+ uniqueFilename_of t name)
          = false) as ->.
  { unfold is_dir. rewrite <- Hpath.
    rewrite (bool_decide_eq_false_2 _ Hnd), orb_false_r.
    apply String.eqb_neq. rewrite Hpath, uploadDir_spec by done.
    intros [= H]. pose proof (upload_segments_nonempty cwd) as Hn.
    destruct (upload_segments cwd) as [|x [|y l]]; [done | |].
    - by destruct x.
    - by destruct x. }
  unfold writable.
  by rewrite !bool_decide_eq_true_2.
Qed.

(** X3. When the declared filename is a plain name (no ['/']), neither the
    temporary path nor the destination holds a NUL, a component of more
    than 255 bytes or 4096 bytes or more in all, the temporary file is
    there, in the upload directory where line 56 has the parser put it, the
    upload directory exists with no regular file in the place of a
    directory on the way to it, it is not read-only and no directory sits
    at the destination, the upload is answered 200 with the [imageUrl] made
    from the name: the bytes are at [<uploadDir>/<millis>-<name>], the
    temporary path no longer holds them, and every other file is as
    before. *)
Theorem upload_succeeds cwd s t req name tmp bytes :
  abs_normalized cwd = true →
  valid_upload req name tmp → has_sep name = false →
  path_refused tmp = None → path_refused (newPath_of cwd t name) = None →
  contents s !! tmp = Some bytes →
  parent_dir tmp = uploadDir cwd →
  is_dir s (uploadDir cwd) = true →
  (∀ d, d ∈ ancestors (uploadDir cwd) → contents s !! d = None) →
  uploadDir cwd ∉ readonly s →
  newPath_of cwd t name ∉ dirs s →
  statusCode (res (serve cwd s t req)) = 200 ∧
  jsonBody (res (serve cwd s t req))
    = [[("imageUrl", "/uploads/avatars/" +:+ pretty t +:+ "-" +:+ name)]] ∧
  newPath_of cwd t name = uploadDir cwd +:+ "/" +:+ pretty t +:+ "-" +:+ name ∧
  contents (disk (serve cwd s t req))
    = <[newPath_of cwd t name := bytes]> (delete tmp (contents s)) ∧
  (tmp ≠ newPath_of cwd t name →
   contents (disk (serve cwd s t req)) !! tmp = None).
Proof.
  intros Hcwd Hv Hsep Hold Hnew Htmp Hin Hdir Hway Hw1 Hnd.
  pose proof Hv as (_ & _ & _ & Hne).
  rewrite (serve_upload _ _ _ _ name tmp) by done.
  rewrite (rename_plain_ok cwd s t name tmp bytes) by (by rewrite ?Hin).
  simpl.
  split; [done |]. split; [done |].
  split; [by apply newPath_plain |]. split; [done |].
  intros Hdiff. by rewrite lookup_insert_ne, lookup_delete_eq.
Qed.

Lemma upload_succeeds_witness :
  statusCode (res (serve demo_cwd (demo_disk [(tmp1, "png bytes")])
                     1700000000000 (upload_of "me.png" tmp1))) = 200 ∧
  jsonBody (res (serve demo_cwd (demo_disk [(tmp1, "png bytes")])
                   1700000000000 (upload_of "me.png" tmp1)))
    = [[("imageUrl", "/uploads/avatars/1700000000000-me.png")]] ∧
  contents (disk (serve demo_cwd (demo_disk [(tmp1, "png bytes")])
                    1700000000000 (upload_of "me.png" tmp1)))
    !! "/srv/hedwig/public/uploads/avatars/1700000000000-me.png"
    = Some "png bytes" ∧
  contents (disk (serve demo_cwd (demo_disk [(tmp1, "png bytes")])
                    1700000000000 (upload_of "me.png" tmp1))) !! tmp1 = None.
Proof.
  assert (valid_upload (upload_of "me.png" tmp1) "me.png" tmp1) as Hv
    by (by repeat split).
  assert (∀ d, d ∈ ancestors (uploadDir demo_cwd) →
               contents (demo_disk [(tmp1, "png bytes")]) !! d = None) as Hway.
  { intros d Hd. vm_compute in Hd.
    repeat (apply elem_of_cons in Hd as [-> | Hd]; [by vm_compute |]).
    by apply elem_of_nil in Hd. }
  destruct (upload_succeeds demo_cwd (demo_disk [(tmp1, "png bytes")])
              1700000000000 (upload_of "me.png" tmp1) "me.png" tmp1
              "png bytes" eq_refl Hv eq_refl eq_refl eq_refl eq_refl eq_refl
              eq_refl Hway
              ltac:(by vm_compute) ltac:(by vm_compute))
    as (H200 & Hbody & _ & Hc & Hgone).
  split; [exact H200 |]. split; [exact Hbody |].
  split; [by rewrite Hc |]. apply Hgone. by vm_compute.
Defined.

Lemma publicDir_spec cwd :
  abs_normalized cwd = true →
  publicDir cwd = "/" +:+ path.join_sep (cwd_segments cwd ++ ["public"]).
Proof.
  intros H. pose proof H as [Habs _]%andb_true_iff.
  destruct cwd as [|c cwd]; [done |].
  unfold publicDir. rewrite join_two by done.
  apply normalize_kept.
  - by rewrite app_String.
  - change ("/" +:+ "public") with "/public".
    by rewrite (ends_with_sep_app _ "/" "public").
  - rewrite segments_app_sep, fold_left_app, cwd_fold by done.
    change (path.segments "public") with ["public"].
    rewrite rev_app_distr. reflexivity.
  - by destruct (cwd_segments (String c cwd)).
  - by rewrite forallb_app, cwd_segments_clean.
Qed.

Lemma newPath_under_public cwd t name :
  abs_normalized cwd = true → name ≠ "" → has_sep name = false →
  newPath_of cwd t name = publicDir cwd +:+ imageUrl_of t name.
Proof.
  intros Hcwd Hne Hsep. rewrite newPath_plain by done.
  rewrite uploadDir_spec, publicDir_spec by done.
  unfold upload_segments, imageUrl_of.
  replace (cwd_segments cwd ++ ["public"; "uploads"; "avatars"])
    with (((cwd_segments cwd ++ ["public"]) ++ ["uploads"]) ++ ["avatars"])
    by (by rewrite <- !app_assoc).
  rewrite !join_sep_snoc by (by destruct (cwd_segments cwd)).
  by rewrite !app_assoc_s.
Qed.

(** X4. For a plain declared filename (no ['/']) the returned [imageUrl] is
    the stored file's path relative to [<cwd>/public]: the URL the client
    gets back names the file that was written. *)
Theorem imageUrl_names_stored_file cwd t name :
  abs_normalized cwd = true → name ≠ "" → has_sep name = false →
  newPath_of cwd t name = publicDir cwd +:+ imageUrl_of t name.
Proof. apply newPath_under_public. Qed.

Lemma imageUrl_names_stored_file_witness :
  newPath_of demo_cwd 1700000000000 "me.png"
    = "/srv/hedwig/public" +:+ "/uploads/avatars/1700000000000-me.png".
Proof.
  rewrite (imageUrl_names_stored_file demo_cwd 1700000000000 "me.png")
    by done.
  by vm_compute.
Defined.

Lemma touched_valid cwd t req name tmp :
  valid_upload req name tmp →
  touched cwd (t, req) = [tmp; newPath_of cwd t name].
Proof. intros (_ & _ & Hf & _). unfold touched. simpl. by rewrite Hf. Qed.

Lemma serve_all_jobs_frame cwd jobs s p :
  Forall job_valid jobs →
  p ∉ map job_tmp jobs → p ∉ map (job_dest cwd) jobs →
  contents (serve_all cwd s (map job_request jobs)) !! p = contents s !! p.
Proof.
  intros Hv Ht Hd. apply serve_all_frame. intros tr Htr.
  apply list_elem_of_fmap in Htr as (j & -> & Hj).
  rewrite Forall_forall in Hv. unfold job_request.
  rewrite (touched_valid _ _ _ (job_name j) (job_tmp j)) by (by apply Hv).
  intros [-> | [-> | []%elem_of_nil]%elem_of_cons]%elem_of_cons.
  - apply Ht. by apply list_elem_of_fmap_2.
  - apply Hd. by apply (list_elem_of_fmap_2 (job_dest cwd)).
Qed.

(** X5. Uploads served one after the other, all answered 200, with their
    temporary paths and destinations pairwise distinct: at the end every
    destination holds the bytes its upload's temporary file held at the
    start, and none of the temporary files is left. *)
Theorem uploads_accumulate cwd jobs : ∀ s,
  Forall job_valid jobs →
  Forall (λ w, statusCode (res w) = 200)
         (serve_log cwd s (map job_request jobs)) →
  NoDup (map job_tmp jobs ++ map (job_dest cwd) jobs) →
  ∀ j, j ∈ jobs →
    is_Some (contents s !! job_tmp j) ∧
    contents (serve_all cwd s (map job_request jobs)) !! job_dest cwd j
      = contents s !! job_tmp j ∧
    contents (serve_all cwd s (map job_request jobs)) !! job_tmp j = None.
Proof.
  induction jobs as [|j1 jobs IH]; intros s Hv H200 Hnd j Hj;
    [by apply elem_of_nil in Hj |].
  inversion Hv as [|? ? Hv1 Hvs]; subst.
  simpl in H200. inversion H200 as [|? ? H1 Hrest]; subst.
  apply (serve_200_renamed _ _ _ _ (job_name j1) (job_tmp j1)) in H1;
    [| done].
  set (s1 := disk (serve cwd s (job_time j1) (job_req j1))) in *.
  simpl in Hnd. apply NoDup_cons in Hnd as [Hfresh Hnd].
  apply NoDup_app in Hnd as (Hnt & Hcross & Hndd).
  apply NoDup_cons in Hndd as [Hd1 Hndd].
  assert (job_tmp j1 ∉ map job_tmp jobs) as Ht1.
  { intros Hin. apply Hfresh, elem_of_app. by left. }
  assert (job_tmp j1 ≠ job_dest cwd j1) as Htd.
  { intros Heq. apply Hfresh, elem_of_app. right. rewrite Heq. by left. }
  assert (job_tmp j1 ∉ map (job_dest cwd) jobs) as Ht1d.
  { intros Hin. apply Hfresh, elem_of_app. right. by right. }
  assert (job_dest cwd j1 ∉ map job_tmp jobs) as Hd1t.
  { intros Hin. apply (Hcross _ Hin). by left. }
  pose proof (renameSync_inr _ _ _ _ H1) as (b1 & Hb1 & _ & Hs1).
  change (serve_all cwd s (map job_request (j1 :: jobs)))
    with (serve_all cwd s1 (map job_request jobs)).
  apply elem_of_cons in Hj as [-> | Hj].
  - split; [eauto |]. split.
    + rewrite serve_all_jobs_frame by done.
      by apply renameSync_moved.
    + rewrite serve_all_jobs_frame by done.
      rewrite Hs1. simpl.
      by rewrite lookup_insert_ne, lookup_delete_eq.
  - assert (NoDup (map job_tmp jobs ++ map (job_dest cwd) jobs)) as Hnd'.
    { apply NoDup_app. repeat split; [done | | done].
      intros x Hx Hx'. apply (Hcross x Hx). by right. }
    destruct (IH s1 Hvs Hrest Hnd' j Hj) as (Hsome & Hdest & Hgone).
    assert (contents s1 !! job_tmp j = contents s !! job_tmp j) as Hsame.
    { apply (renameSync_frame _ _ _ _ _ H1).
      - intros Heq. apply Ht1. rewrite <- Heq. by apply list_elem_of_fmap_2.
      - intros Heq. apply Hd1t. unfold job_dest. rewrite <- Heq.
        by apply list_elem_of_fmap_2. }
    by rewrite <- Hsame.
Qed.

Lemma uploads_accumulate_witness :
  contents (serve_all demo_cwd
     (demo_disk [(tmp1, "first bytes"); (tmp2, "second bytes")])
     (map job_request demo_jobs))
    !! "/srv/hedwig/public/uploads/avatars/1700000000000-a.png"
    = Some "first bytes".
Proof.
  assert (Forall job_valid demo_jobs) as Hv
    by (repeat constructor; done).
  assert (Forall (λ w, statusCode (res w) = 200)
            (serve_log demo_cwd
               (demo_disk [(tmp1, "first bytes"); (tmp2, "second bytes")])
               (map job_request demo_jobs))) as H200
    by (repeat constructor; by vm_compute).
  assert (NoDup (map job_tmp demo_jobs ++ map (job_dest demo_cwd) demo_jobs))
    as Hnd.
  { apply (bool_decide_unpack _). by vm_compute. }
  destruct (uploads_accumulate demo_cwd demo_jobs _ Hv H200 Hnd
              (mkJob 1700000000000 (upload_of "a.png" tmp1) "a.png" tmp1)
              ltac:(by left)) as (_ & Hdest & _).
  change (job_dest demo_cwd
            (mkJob 1700000000000 (upload_of "a.png" tmp1) "a.png" tmp1))
    with (newPath_of demo_cwd 1700000000000 "a.png") in Hdest.
  replace (newPath_of demo_cwd 1700000000000 "a.png")
    with "/srv/hedwig/public/uploads/avatars/1700000000000-a.png" in Hdest
    by (by vm_compute).
  rewrite Hdest. by vm_compute.
Defined.

(** X6. A regular file in the place of the upload directory goes unnoticed
    when the module is loaded ([existsSync] is true for a file, so nothing
    is created and nothing is thrown), and from then on every upload with a
    plain filename is answered 500. *)
Theorem file_in_place_of_directory cwd s :
  abs_normalized cwd = true →
  is_file s (uploadDir cwd) = true → uploadDir cwd ∉ dirs s →
  (∀ w, disk w = s → module_init cwd w = (inr (), w)) ∧
  (∀ t req name tmp,
     valid_upload req name tmp → has_sep name = false →
     statusCode (res (serve cwd s t req)) = 500).
Proof.
  intros Hcwd Hfile Hnd. split.
  - intros w <-. rewrite module_init_run. unfold existsSync.
    by rewrite Hfile.
  - intros t req name tmp Hv Hsep. pose proof Hv as (_ & _ & _ & Hne).
    rewrite (serve_upload _ _ _ _ name tmp) by done.
    assert (∃ e, renameSync tmp (newPath_of cwd t name) s = inl e) as [e ->].
    { unfold renameSync.
      destruct (path_refused tmp); [by eexists |].
      destruct (path_refused _); [by eexists |].
      destruct (contents s !! tmp); [| by eexists].
      destruct (file_on_the_way s _); [by eexists |].
      destruct (ends_with_sep _); [by eexists |].
      rewrite newPath_plain, parent_dir_child by
        (try done; by apply clean_segment_spec, uniqueFilename_clean).
      assert (str_falsy (uploadDir cwd) = false) as ->
        by (by rewrite uploadDir_spec).
      assert (is_dir s (uploadDir cwd) = false) as ->; [| by eexists].
      unfold is_dir. rewrite (bool_decide_eq_false_2 _ Hnd), orb_false_r.
      apply String.eqb_neq. rewrite uploadDir_spec by done.
      intros [= H].
      pose proof (join_sep_truthy (upload_segments cwd)
                    (upload_segments_nonempty cwd)
                    (upload_segments_clean cwd Hcwd)) as Ht.
      change (path.join_sep (upload_segments cwd) = "") in H.
      by rewrite H in Ht. }
    simpl. by destruct (unlinkSync tmp s).
Qed.

Lemma file_in_place_of_directory_witness :
  module_init demo_cwd (at_load (blocked_disk []))
    = (inr (), at_load (blocked_disk [])) ∧
  statusCode (res (serve demo_cwd (blocked_disk []) 1700000000000
                     (upload_of "me.png" tmp1))) = 500.
Proof.
  assert (uploadDir demo_cwd ∉ dirs (blocked_disk [])) as Hnd
    by (apply (bool_decide_unpack _); by vm_compute).
  destruct (file_in_place_of_directory demo_cwd (blocked_disk []) eq_refl
              ltac:(by vm_compute) Hnd) as [Hload Hup].
  split; [by apply Hload |].
  apply (Hup 1700000000000 (upload_of "me.png" tmp1) "me.png" tmp1);
    [by repeat split | done].
Defined.

(** ** The test page *)

(** X13. After the file dialog was cancelled (no file list, or an empty
    one) the page holds no file, the message shown before is still there,
    and submitting sends no request: the page only asks for a file and
    leaves the image it showed as it was. *)
Theorem submit_without_file_sends_nothing net st files :
  files = None ∨ files = Some [] →
  page.file (page.apply_actions st (page.handleFileChange files)) = None ∧
  page.message (page.apply_actions st (page.handleFileChange files))
    = page.message st ∧
  page.calls (page.handleSubmit net
                (page.apply_actions st (page.handleFileChange files))) = [] ∧
  page.submitted net (page.apply_actions st (page.handleFileChange files))
    = page.mkState None "Please select a file to upload."
        (page.uploadedImageUrl st).
Proof. by intros [-> | ->]. Qed.

Lemma submit_without_file_sends_nothing_witness :
  page.calls (page.handleSubmit (λ _, page.Rejected "offline")
     (page.apply_actions
        (page.mkState (Some (page.mkBrowserFile "me.png" "png bytes"))
           "Upload successful!" (Some "/uploads/avatars/1-me.png"))
        (page.handleFileChange (Some [])))) = [] ∧
  page.shows_image (page.submitted (λ _, page.Rejected "offline")
     (page.apply_actions
        (page.mkState (Some (page.mkBrowserFile "me.png" "png bytes"))
           "Upload successful!" (Some "/uploads/avatars/1-me.png"))
        (page.handleFileChange (Some [])))) = true.
Proof.
  destruct (submit_without_file_sends_nothing (λ _, page.Rejected "offline")
     (page.mkState (Some (page.mkBrowserFile "me.png" "png bytes"))
        "Upload successful!" (Some "/uploads/avatars/1-me.png"))
     (Some []) (or_intror eq_refl)) as (_ & _ & Hcalls & Hst).
  split; [exact Hcalls |]. by rewrite Hst.
Defined.

(** X14. With a file selected, submitting sends exactly one request, a POST
    to [/api/upload-avatar] carrying that file under the field ['avatar'],
    and keeps the file selected. Afterwards an image is shown exactly when
    the response was ok, its body was a JSON object and that object held a
    non-empty [imageUrl], which is then the image's address. When the
    request was rejected, the response was not ok or its body was no JSON,
    the address is reset to the empty string and a message is shown. *)
Theorem image_shown_only_after_ok net st f :
  page.file st = Some f →
  page.calls (page.handleSubmit net st)
    = [page.mkCall "/api/upload-avatar" "POST" [("avatar", f)]] ∧
  page.file (page.submitted net st) = Some f ∧
  (page.shows_image (page.submitted net st) = true ↔
   ∃ r data u,
     net (page.mkCall "/api/upload-avatar" "POST" [("avatar", f)])
       = page.Resolved r ∧
     page.ok r = true ∧ page.json r = page.JsonObject data ∧
     data !! "imageUrl" = Some u ∧ u ≠ "" ∧
     page.uploadedImageUrl (page.submitted net st) = Some u) ∧
  ((∀ r, net (page.mkCall "/api/upload-avatar" "POST" [("avatar", f)])
           = page.Resolved r →
         page.ok r = false ∨ ∃ msg, page.json r = page.JsonThrows msg) →
   page.uploadedImageUrl (page.submitted net st) = Some "" ∧
   page.shows_message (page.submitted net st) = true).
Proof.
  intros Hf. unfold page.submitted, page.handleSubmit. rewrite Hf.
  destruct (net _) as [msg | r] eqn:Hnet; simpl.
  - repeat split; try done.
    by intros (r & data & u & [=] & _).
  - destruct (page.json r) as [msg | data] eqn:Hjson; simpl.
    + repeat split; try done.
      by intros (r' & data & u & [= <-] & _ & ? & _); congruence.
    + destruct (page.ok r) eqn:Hok; simpl.
      * unfold page.shows_image. simpl. repeat split; try done.
        -- destruct (data !! "imageUrl") as [u|] eqn:Hu; [| done].
           intros Hshow. exists r, data, u. repeat split; try done.
           intros ->. done.
        -- intros (r' & data' & u & [= <-] & _ & Hj & Hu & Hne & _).
           rewrite Hjson in Hj. injection Hj as <-. rewrite Hu.
           by destruct u.
        -- destruct (H r eq_refl) as [? | [msg ?]]; congruence.
      * repeat split; try done.
        intros (r' & data' & u & [= <-] & Hok' & _). congruence.
Qed.

Lemma image_shown_only_after_ok_witness :
  page.shows_image (page.submitted
     (λ _, page.Resolved (page.mkResponse false "Bad Request"
             (page.JsonObject {["error" := "No file uploaded."]})))
     (page.mkState (Some (page.mkBrowserFile "me.png" "png bytes")) ""
        (Some "/uploads/avatars/1-old.png"))) = false ∧
  page.calls (page.handleSubmit
     (λ _, page.Resolved (page.mkResponse false "Bad Request"
             (page.JsonObject {["error" := "No file uploaded."]})))
     (page.mkState (Some (page.mkBrowserFile "me.png" "png bytes")) ""
        (Some "/uploads/avatars/1-old.png")))
    = [page.mkCall "/api/upload-avatar" "POST"
         [("avatar", page.mkBrowserFile "me.png" "png bytes")]].
Proof.
  split; [by vm_compute |].
  exact (proj1 (image_shown_only_after_ok
     (λ _, page.Resolved (page.mkResponse false "Bad Request"
             (page.JsonObject {["error" := "No file uploaded."]})))
     (page.mkState (Some (page.mkBrowserFile "me.png" "png bytes")) ""
        (Some "/uploads/avatars/1-old.png"))
     (page.mkBrowserFile "me.png" "png bytes") eq_refl)).
Defined.

(** ** The App Router route *)

Ltac run_route :=
  unfold route.POST, route.try_catch, route.attempt, route.recover, mbind,
    route.Task_bind, mret, route.Task_ret, route.fs_call,
    route.formidableParse, route.throw, route.Date_now, route.console_error;
  simpl.

Lemma recover_no_oldPath describe e w :
  route.oldPath e = None →
  route.recover describe e w
  = (inr (failure_reply e),
     route.mkState (route.disk w) (route.clock w)
       (route.console w ++ [("Upload error:", e)])).
Proof.
  intros Ho. unfold failure_reply. run_route. rewrite Ho.
  by destruct (route.includes _ _).
Qed.

Lemma recover_returns describe e w :
  ∃ reply w', route.recover describe e w = (inr reply, w') ∧
    route.status reply = 500 ∧ (∃ msg, route.body reply = [("error", msg)]) ∧
    route.console w' ≠ route.console w ∧
    route.clock w' = route.clock w ∧
    dirs (route.disk w') = dirs (route.disk w).
Proof.
  assert (∀ l (x : string * route.Thrown) l', l ++ x :: l' ≠ l) as Hgrow.
  { intros l x l' H. apply (f_equal length) in H.
    rewrite length_app in H. simpl in H. lia. }
  assert (∀ reply s' log,
            route.status reply = 500 →
            (∃ msg, route.body reply = [("error", msg)]) →
            dirs s' = dirs (route.disk w) →
            ∃ reply' w',
              (@inr route.Thrown _ reply,
               route.mkState s' (route.clock w)
                 (route.console w ++ ("Upload error:", e) :: log))
              = (inr reply', w') ∧
              route.status reply' = 500 ∧
              (∃ msg, route.body reply' = [("error", msg)]) ∧
              route.console w' ≠ route.console w ∧
              route.clock w' = route.clock w ∧
              dirs (route.disk w') = dirs (route.disk w)) as Hfin.
  { intros reply s' log H500 Hb Hd. do 2 eexists. split; [done |].
    simpl. repeat split; try done; apply Hgrow. }
  run_route.
  destruct (route.includes _ _); [apply Hfin; eauto |].
  destruct (route.oldPath e) as [p|]; [| apply Hfin; eauto].
  destruct (str_falsy p); [apply Hfin; eauto |].
  unfold route.try_catch. simpl.
  destruct (unlinkSync p (route.disk w)) as [e' | s'] eqn:Hu; simpl.
  - rewrite <- app_assoc. apply Hfin; eauto.
  - apply unlinkSync_inr in Hu as ->. apply Hfin; eauto.
Qed.

(** X17. [POST] never rejects: whatever the request and the disk, it
    resolves to one response. The response carries an [imageUrl] with status
    200, or an error with status 400, or an error with status 500; in the
    first two cases nothing is logged, in the last the thrown value is. *)
Theorem POST_always_responds cwd describe req w :
  ∃ reply w', route.POST cwd describe req w = (inr reply, w') ∧
    ((route.status reply = 200 ∧
      (∃ u, route.body reply = [("imageUrl", u)]) ∧
      route.console w' = route.console w) ∨
     (route.status reply = 400 ∧
      (∃ msg, route.body reply = [("error", msg)]) ∧
      route.console w' = route.console w) ∨
     (route.status reply = 500 ∧
      (∃ msg, route.body reply = [("error", msg)]) ∧
      route.console w' ≠ route.console w)).
Proof.
  assert (∀ e w0, route.console w0 = route.console w →
            ∃ reply w', route.recover describe e w0 = (inr reply, w') ∧
              (route.status reply = 500 ∧
               (∃ msg, route.body reply = [("error", msg)]) ∧
               route.console w' ≠ route.console w)) as Hrec.
  { intros e w0 Hc.
    destruct (recover_returns describe e w0)
      as (reply & w' & -> & H500 & Hb & Hlog & _).
    exists reply, w'. rewrite <- Hc. eauto. }
  unfold route.POST, route.try_catch, route.attempt, mbind, route.Task_bind,
    route.fs_call.
  destruct (mkdirSync_recursive _ (route.disk w)) as [e | s1].
  { destruct (Hrec (route.mkThrown
                      (describe e "mkdir" [uploadDir cwd]) None) w eq_refl)
      as (reply & w' & -> & H). eauto 10. }
  unfold route.formidableParse.
  destruct (route.rejection req) as [e|].
  { unfold route.throw.
    destruct (Hrec e (route.mkState s1 (route.clock w) (route.console w))
                eq_refl) as (reply & w' & -> & H). eauto 10. }
  unfold mret, route.Task_ret. simpl.
  destruct (route.files req !! "avatar") as [file|]; [| by eauto 12].
  destruct (first_file file) as [[[name|] tmp]|]; try (by eauto 12).
  destruct (str_falsy name); [by eauto 12 |].
  unfold route.Date_now. simpl.
  destruct (renameSync tmp _ s1) as [e | s2]; [| by eauto 12].
  match goal with
  | |- context [route.recover _ ?e ?w0] =>
      destruct (Hrec e w0 eq_refl) as (reply & w' & -> & H)
  end.
  eauto 10.
Qed.

Lemma mkdir_fold_id g l s :
  (∀ d, d ∈ l → is_dir s d = true) →
  fold_left (mkdir_one g) l (inr s) = inr s.
Proof.
  induction l as [|d l IH]; intros H; [done |]. cbn [fold_left].
  unfold mkdir_one at 2. rewrite H by (by left).
  apply IH. intros d' Hd'. apply H. by right.
Qed.

(** X18. When the rename throws in [POST], nothing is cleaned up: the error
    of a system call has no [oldPath], so the [catch] block answers 500 and
    the disk stays as [mkdir] left it, with the temporary file where the
    parser put it. The pages route, on the same disk and request, removes
    that file whenever its unlink goes through. *)
Theorem POST_leaves_temp_file cwd describe req name tmp s s1 t log e :
  mkdirSync_recursive (uploadDir cwd) s = inr s1 →
  route.rejection req = None →
  valid_upload (route.as_pages req) name tmp →
  renameSync tmp (newPath_of cwd t name) s1 = inl e →
  route.POST cwd describe req (route.mkState s t log)
    = (inr (failure_reply
              (route.mkThrown
                 (describe e "rename" [tmp; newPath_of cwd t name]) None)),
       route.mkState s1 t
         (log ++ [("Upload error:",
                   route.mkThrown
                     (describe e "rename" [tmp; newPath_of cwd t name])
                     None)])) ∧
  contents s1 !! tmp = contents s !! tmp ∧
  (∀ s2, unlinkSync tmp s1 = inr s2 →
         contents (disk (serve cwd s1 t (route.as_pages req))) !! tmp = None).
Proof.
  intros Hmk Hrej Hv Hr. split; [| split].
  - pose proof Hv as (_ & _ & Hf & Hne).
    apply avatar_file_Some in Hf as (file & Hlook & Hfirst).
    simpl in Hlook.
    unfold route.POST, route.try_catch, route.attempt, mbind,
      route.Task_bind, route.fs_call, route.formidableParse.
    simpl. rewrite Hmk, Hrej. unfold mret, route.Task_ret. simpl.
    rewrite Hlook, Hfirst.
    destruct name as [|c name]; [done |]. simpl.
    unfold route.Date_now. simpl.
    change (path.join [uploadDir cwd; uniqueFilename_of t (String c name)])
      with (newPath_of cwd t (String c name)).
    rewrite Hr. by rewrite recover_no_oldPath.
  - apply mkdir_fold_inr in Hmk as (_ & Hc & _). by rewrite Hc.
  - intros s2 Hu. rewrite (serve_upload _ _ _ _ name tmp), Hr by done.
    simpl. rewrite Hu. simpl. by apply (unlinkSync_gone tmp s1).
Qed.

Lemma POST_leaves_temp_file_witness :
  contents (demo_disk [(tmp1, "png bytes")]) !! tmp1 = Some "png bytes" ∧
  ∃ reply w',
    route.POST demo_cwd (λ _ _ _, "ENOENT: no such file or directory")
      (route.mkSubmission None ∅
         {["avatar" := One (mkFile (Some "holiday/me.png") tmp1)]})
      (route.mkState (demo_disk [(tmp1, "png bytes")]) 1700000000000 [])
    = (inr reply, w') ∧
    route.status reply = 500 ∧
    contents (route.disk w') !! tmp1 = Some "png bytes".
Proof.
  split; [by vm_compute |].
  destruct (POST_leaves_temp_file demo_cwd
     (λ _ _ _, "ENOENT: no such file or directory")
     (route.mkSubmission None ∅
        {["avatar" := One (mkFile (Some "holiday/me.png") tmp1)]})
     "holiday/me.png" tmp1
     (demo_disk [(tmp1, "png bytes")]) (demo_disk [(tmp1, "png bytes")])
     1700000000000 [] ENOENT) as (Hpost & Hsame & _).
  - by vm_compute.
  - done.
  - by repeat split.
  - by vm_compute.
  - do 2 eexists. split; [exact Hpost |]. split; by vm_compute.
Defined.

(** Once [mkdir] went through, [POST] resolves and leaves the directories
    as [mkdir] made them. *)
Lemma POST_after_mkdir cwd describe req s s1 t log :
  mkdirSync_recursive (uploadDir cwd) s = inr s1 →
  ∃ reply w', route.POST cwd describe req (route.mkState s t log)
              = (inr reply, w') ∧
              dirs (route.disk w') = dirs s1.
Proof.
  intros Hmk.
  assert (∀ e, ∃ reply w',
            route.recover describe e (route.mkState s1 t log) = (inr reply, w') ∧
            dirs (route.disk w') = dirs s1) as Hrec.
  { intros e.
    destruct (recover_returns describe e (route.mkState s1 t log))
      as (reply & w' & -> & _ & _ & _ & _ & Hd). eauto. }
  unfold route.POST, route.try_catch, route.attempt, mbind, route.Task_bind,
    route.fs_call. simpl. rewrite Hmk.
  unfold route.formidableParse.
  destruct (route.rejection req) as [e|]; [apply Hrec |].
  unfold mret, route.Task_ret. simpl.
  destruct (route.files req !! "avatar") as [file|]; [| by eauto].
  destruct (first_file file) as [[[name|] tmp]|]; try (by eauto).
  destruct (str_falsy name); [by eauto |].
  unfold route.Date_now. simpl.
  destruct (renameSync tmp _ s1) as [e | s2] eqn:Hr; [apply Hrec |].
  apply renameSync_inr in Hr as (bytes & _ & _ & ->). by eauto.
Qed.

(** X19. [POST] makes the upload directory itself, on every request and
    before anything else: if [mkdir] throws, the answer is 500 whatever the
    request holds and the disk is untouched; if it goes through, the upload
    directory exists once the request is answered, whatever the answer
    is. *)
Theorem POST_makes_directory cwd describe req s t log :
  abs_normalized cwd = true →
  (∀ e, mkdirSync_recursive (uploadDir cwd) s = inl e →
        route.POST cwd describe req (route.mkState s t log)
        = (inr (failure_reply
                  (route.mkThrown (describe e "mkdir" [uploadDir cwd]) None)),
           route.mkState s t
             (log ++ [("Upload error:",
                       route.mkThrown (describe e "mkdir" [uploadDir cwd])
                         None)]))) ∧
  (∀ s1, mkdirSync_recursive (uploadDir cwd) s = inr s1 →
         ∃ reply w', route.POST cwd describe req (route.mkState s t log)
                     = (inr reply, w') ∧
                     is_dir (route.disk w') (uploadDir cwd) = true).
Proof.
  intros Hcwd. split.
  - intros e Hmk.
    unfold route.POST, route.try_catch, route.attempt, mbind,
      route.Task_bind, route.fs_call. simpl. rewrite Hmk.
    by rewrite recover_no_oldPath.
  - intros s1 Hmk.
    destruct (POST_after_mkdir cwd describe req s s1 t log Hmk)
      as (reply & w' & Hpost & Hd).
    exists reply, w'. split; [done |].
    apply mkdir_fold_inr in Hmk as (Hall & _).
    specialize (Hall _ (uploadDir_in_ancestors cwd Hcwd)).
    unfold is_dir in *. by rewrite Hd.
Qed.

Lemma POST_makes_directory_witness :
  existsSync (uploadDir demo_cwd) pruned_disk = false ∧
  ∃ reply w',
    route.POST demo_cwd (λ _ _ _, "ENOENT: no such file or directory")
      (route.mkSubmission None ∅ ∅) (route.mkState pruned_disk 0 [])
    = (inr reply, w') ∧
    is_dir (route.disk w') (uploadDir demo_cwd) = true.
Proof.
  split; [by vm_compute |].
  destruct (mkdirSync_recursive (uploadDir demo_cwd) pruned_disk)
    as [e | s1] eqn:Hmk; [by vm_compute in Hmk |].
  exact (proj2 (POST_makes_directory demo_cwd
                  (λ _ _ _, "ENOENT: no such file or directory")
                  (route.mkSubmission None ∅ ∅) pruned_disk 0 [] eq_refl)
               s1 Hmk).
Defined.

(** X20. Where the upload directory and the directories above it exist and
    the parser accepted the body, the two routes agree on every request the
    pages route does not answer with 500: the same status, the same JSON
    body and the same disk afterwards. *)
Theorem POST_agrees_with_pages cwd describe req s t :
  route.rejection req = None →
  (∀ d, d ∈ ancestors (uploadDir cwd) → is_dir s d = true) →
  statusCode (res (serve cwd s t (route.as_pages req))) ≠ 500 →
  ∃ body,
    jsonBody (res (serve cwd s t (route.as_pages req))) = [body] ∧
    route.POST cwd describe req (route.mkState s t [])
    = (inr (route.mkReply
              (statusCode (res (serve cwd s t (route.as_pages req)))) body),
       route.mkState (disk (serve cwd s t (route.as_pages req))) t []).
Proof.
  intros Hrej Hdirs H500.
  unfold route.POST, route.try_catch, route.attempt, mbind, route.Task_bind,
    route.fs_call, route.formidableParse. simpl.
  unfold mkdirSync_recursive. cbv zeta. rewrite mkdir_fold_id, Hrej by done.
  unfold mret, route.Task_ret. simpl.
  revert H500. run_js.
  destruct (route.files req !! "avatar") as [file|]; [| by eauto].
  destruct (first_file file) as [[[name|] tmp]|]; try (by eauto).
  destruct name as [|c name]; [by eauto |]. simpl.
  unfold route.Date_now. simpl.
  destruct (renameSync tmp _ s) as [e | s2]; simpl; [| by eauto].
  by destruct (unlinkSync tmp s).
Qed.

Lemma POST_agrees_with_pages_witness :
  route.POST demo_cwd (λ _ _ _, "")
    (route.mkSubmission None ∅
       {["avatar" := One (mkFile (Some "me.png") tmp1)]})
    (route.mkState (demo_disk [(tmp1, "png bytes")]) 1700000000000 [])
  = (inr (route.mkReply 200
            [("imageUrl", "/uploads/avatars/1700000000000-me.png")]),
     route.mkState
       (disk (serve demo_cwd (demo_disk [(tmp1, "png bytes")]) 1700000000000
                (upload_of "me.png" tmp1)))
       1700000000000 []).
Proof.
  destruct (POST_agrees_with_pages demo_cwd (λ _ _ _, "")
     (route.mkSubmission None ∅
        {["avatar" := One (mkFile (Some "me.png") tmp1)]})
     (demo_disk [(tmp1, "png bytes")]) 1700000000000 eq_refl)
    as (body & Hbody & Hpost).
  - intros d Hd. vm_compute in Hd.
    repeat (apply elem_of_cons in Hd as [-> | Hd]; [by vm_compute |]).
    by apply elem_of_nil in Hd.
  - by vm_compute.
  - rewrite Hpost. vm_compute in Hbody. injection Hbody as <-.
    by vm_compute.
Defined.

(** ** The test page against the pages route *)

Lemma submitted_ok net st f data ok_text :
  page.file st = Some f →
  net (page.mkCall "/api/upload-avatar" "POST" [("avatar", f)])
    = page.Resolved (page.mkResponse true ok_text (page.JsonObject data)) →
  page.submitted net st
    = page.mkState (Some f) "Upload successful!" (data !! "imageUrl").
Proof.
  intros Hf Hnet. unfold page.submitted, page.handleSubmit.
  rewrite Hf. simpl. rewrite Hnet. simpl. by rewrite Hf.
Qed.

Lemma submitted_error net st f msg text :
  page.file st = Some f → msg ≠ "" →
  net (page.mkCall "/api/upload-avatar" "POST" [("avatar", f)])
    = page.Resolved (page.mkResponse false text
                       (page.JsonObject (list_to_map [("error", msg)]))) →
  page.submitted net st
    = page.mkState (Some f) ("Upload failed: " +:+ msg) (Some "").
Proof.
  intros Hf Hmsg Hnet. unfold page.submitted, page.handleSubmit.
  rewrite Hf. simpl. rewrite Hnet. simpl.
  rewrite lookup_insert_eq, Hf. simpl. by destruct msg.
Qed.

(** X15. Whatever request the pages route answers, the page tells its
    user what the route said. After a 200 it shows "Upload successful!" and
    the image at the returned [imageUrl]; after any other status it shows
    "Upload failed: " followed by the route's own error text and no image.
    The reason phrase and "Unknown error" are never needed. *)
Theorem page_reports_route_answer cwd s t req reason st f :
  page.file st = Some f →
  (statusCode (res (serve cwd s t req)) = 200 ∧
   ∃ u, jsonBody (res (serve cwd s t req)) = [[("imageUrl", u)]] ∧
        page.submitted (λ _, page.respond reason (res (serve cwd s t req))) st
        = page.mkState (Some f) "Upload successful!" (Some u) ∧
        page.shows_image
          (page.submitted
             (λ _, page.respond reason (res (serve cwd s t req))) st) = true) ∨
  (statusCode (res (serve cwd s t req)) ≠ 200 ∧
   ∃ msg, jsonBody (res (serve cwd s t req)) = [[("error", msg)]] ∧
          page.submitted
            (λ _, page.respond reason (res (serve cwd s t req))) st
          = page.mkState (Some f) ("Upload failed: " +:+ msg) (Some "")).
Proof.
  intros Hf.
  destruct (request_cases req)
    as [Hm | [(Hm & e & He) | [(Hm & He & Hc) | (name & tmp & Hv)]]].
  - rewrite serve_other_method by done. right. split; [done |].
    eexists. split; [done |]. by apply (submitted_error _ _ f _ reason).
  - rewrite (serve_parse_error _ _ _ _ e) by done. right. split; [done |].
    eexists. split; [done |]. by apply (submitted_error _ _ f _ reason).
  - destruct (serve_no_file cwd s t req Hm He Hc) as (msg & -> & Hmsg).
    right. split; [done |]. exists msg. split; [done |].
    apply (submitted_error _ _ f _ reason); [done | | done].
    by destruct Hmsg as [-> | ->].
  - rewrite (serve_upload _ _ _ _ name tmp) by done.
    destruct (renameSync _ _ s) as [e | s'].
    + right. simpl.
      destruct (unlinkSync tmp s); (split; [done |]); eexists;
        (split; [done |]); by apply (submitted_error _ _ f _ reason).
    + left. split; [done |]. exists (imageUrl_of t name). split; [done |].
      rewrite (submitted_ok _ _ f (list_to_map [("imageUrl", imageUrl_of t name)])
                 reason) by done.
      simpl. by rewrite lookup_insert_eq.
Qed.

Lemma page_reports_route_answer_witness :
  page.submitted
    (λ _, page.respond "Bad Request"
            (res (serve demo_cwd (demo_disk []) 1700000000000
                    (mkReq "POST" (mkForm None ∅ ∅)))))
    (page.mkState (Some (page.mkBrowserFile "me.png" "png bytes")) ""
       (Some ""))
  = page.mkState (Some (page.mkBrowserFile "me.png" "png bytes"))
      "Upload failed: No file uploaded." (Some "").
Proof.
  destruct (page_reports_route_answer demo_cwd (demo_disk []) 1700000000000
     (mkReq "POST" (mkForm None ∅ ∅)) "Bad Request"
     (page.mkState (Some (page.mkBrowserFile "me.png" "png bytes")) ""
        (Some ""))
     (page.mkBrowserFile "me.png" "png bytes") eq_refl)
    as [[H200 _] | (_ & msg & Hbody & Hst)].
  - by vm_compute in H200.
  - rewrite Hst. vm_compute in Hbody. by injection Hbody as <-.
Defined.

(** X16. From the file picker to the stored asset: when the request the
    route gets for the selected file is a well-formed upload under the
    file's own plain name, its temporary file holds the file's bytes in the
    upload directory and nothing is in the rename's way (neither path holds
    a NUL, a component of more than 255 bytes or 4096 bytes or more in all;
    the upload directory exists, is not read-only and has no regular file
    in the place of a directory on the way to it; no directory sits at the
    destination),
    the page ends up showing "Upload successful!" and an image whose
    address, taken below [<cwd>/public], is a file holding exactly the
    bytes that were picked. *)
Theorem picked_file_is_served cwd s t req reason st f tmp :
  abs_normalized cwd = true →
  page.file st = Some f →
  valid_upload req (page.name f) tmp → has_sep (page.name f) = false →
  path_refused tmp = None →
  path_refused (newPath_of cwd t (page.name f)) = None →
  contents s !! tmp = Some (page.bytes f) →
  parent_dir tmp = uploadDir cwd →
  is_dir s (uploadDir cwd) = true →
  (∀ d, d ∈ ancestors (uploadDir cwd) → contents s !! d = None) →
  uploadDir cwd ∉ readonly s →
  newPath_of cwd t (page.name f) ∉ dirs s →
  page.submitted (λ _, page.respond reason (res (serve cwd s t req))) st
    = page.mkState (Some f) "Upload successful!"
        (Some ("/uploads/avatars/" +:+ pretty t +:+ "-" +:+ page.name f)) ∧
  contents (disk (serve cwd s t req))
    !! (publicDir cwd +:+
        "/uploads/avatars/" +:+ pretty t +:+ "-" +:+ page.name f)
    = Some (page.bytes f).
Proof.
  intros Hcwd Hf Hv Hsep Hold Hnew Htmp Hin Hdir Hway Hw1 Hnd.
  pose proof Hv as (_ & _ & _ & Hne).
  rewrite (serve_upload _ _ _ _ (page.name f) tmp) by done.
  rewrite (rename_plain_ok cwd s t (page.name f) tmp (page.bytes f))
    by (by rewrite ?Hin).
  simpl. split.
  - rewrite (submitted_ok _ _ f
               (list_to_map [("imageUrl", imageUrl_of t (page.name f))])
               reason) by done.
    simpl. by rewrite lookup_insert_eq.
  - change ("/uploads/avatars/" +:+ pretty t +:+ "-" +:+ page.name f)
      with (imageUrl_of t (page.name f)).
    rewrite <- newPath_under_public by done.
    by rewrite lookup_insert_eq.
Qed.

Lemma picked_file_is_served_witness :
  page.submitted
    (λ _, page.respond "OK"
            (res (serve demo_cwd (demo_disk [(tmp1, "png bytes")])
                    1700000000000 (upload_of "me.png" tmp1))))
    (page.mkState (Some (page.mkBrowserFile "me.png" "png bytes")) ""
       (Some ""))
  = page.mkState (Some (page.mkBrowserFile "me.png" "png bytes"))
      "Upload successful!"
      (Some "/uploads/avatars/1700000000000-me.png") ∧
  contents (disk (serve demo_cwd (demo_disk [(tmp1, "png bytes")])
                    1700000000000 (upload_of "me.png" tmp1)))
    !! "/srv/hedwig/public/uploads/avatars/1700000000000-me.png"
    = Some "png bytes".
Proof.
  assert (valid_upload (upload_of "me.png" tmp1) "me.png" tmp1) as Hv
    by (by repeat split).
  assert (∀ d, d ∈ ancestors (uploadDir demo_cwd) →
               contents (demo_disk [(tmp1, "png bytes")]) !! d = None) as Hway.
  { intros d Hd. vm_compute in Hd.
    repeat (apply elem_of_cons in Hd as [-> | Hd]; [by vm_compute |]).
    by apply elem_of_nil in Hd. }
  destruct (picked_file_is_served demo_cwd (demo_disk [(tmp1, "png bytes")])
     1700000000000 (upload_of "me.png" tmp1) "OK"
     (page.mkState (Some (page.mkBrowserFile "me.png" "png bytes")) ""
        (Some ""))
     (page.mkBrowserFile "me.png" "png bytes") tmp1
     eq_refl eq_refl Hv eq_refl eq_refl eq_refl eq_refl eq_refl eq_refl Hway
     ltac:(by vm_compute) ltac:(by vm_compute))
    as [Hpage Hbytes].
  split; [exact Hpage |].
  replace "/srv/hedwig/public/uploads/avatars/1700000000000-me.png"
    with (publicDir demo_cwd +:+ "/uploads/avatars/" +:+
          pretty 1700000000000 +:+ "-" +:+
          page.name (page.mkBrowserFile "me.png" "png bytes"))
    by (by vm_compute).
  exact Hbytes.
Defined.

(** X21. The clean-up of [POST]'s [catch] block is driven by the thrown
    value alone. When the message mentions 'Invalid Formidable options' the
    answer is the 500 about parsing and nothing on the disk is touched,
    whatever [oldPath] holds. Otherwise the block unlinks exactly the path
    found in a non-empty string [oldPath], and leaves the disk untouched
    when there is none; whether the unlink goes through or throws, the
    answer is the same 500 'Upload failed: <message>', and a failed unlink
    is only logged. *)
Theorem POST_cleanup_follows_oldPath describe e w :
  ∃ reply w', route.recover describe e w = (inr reply, w') ∧
    route.clock w' = route.clock w ∧
    if route.includes "Invalid Formidable options" (route.message e) then
      reply = route.mkReply 500
                [("error",
                  "Error parsing form data. Check server logs for formidable issues.")] ∧
      route.disk w' = route.disk w ∧
      route.console w' = route.console w ++ [("Upload error:", e)]
    else
      reply = route.mkReply 500
                [("error", "Upload failed: " +:+ route.message e)] ∧
      match route.oldPath e with
      | Some (String c p) =>
          match unlinkSync (String c p) (route.disk w) with
          | inr s' =>
              route.disk w' = s' ∧
              contents (route.disk w') !! String c p = None ∧
              (∀ q, q ≠ String c p →
                    contents (route.disk w') !! q
                    = contents (route.disk w) !! q) ∧
              route.console w' = route.console w ++ [("Upload error:", e)]
          | inl e' =>
              route.disk w' = route.disk w ∧
              route.console w'
                = route.console w ++
                  [("Upload error:", e);
                   ("Error deleting temporary file during error handling:",
                    route.mkThrown (describe e' "unlink" [String c p]) None)]
          end
      | _ =>
          route.disk w' = route.disk w ∧
          route.console w' = route.console w ++ [("Upload error:", e)]
      end.
Proof.
  run_route.
  destruct (route.includes _ _); [by eauto 8 |].
  destruct (route.oldPath e) as [[|c p]|]; [by eauto 8 | | by eauto 8].
  unfold route.try_catch. simpl.
  destruct (unlinkSync (String c p) (route.disk w)) as [e' | s'] eqn:Hu;
    simpl.
  - do 2 eexists. split; [done |]. simpl. by rewrite <- app_assoc.
  - do 2 eexists. split; [done |]. simpl. repeat split.
    + by apply (unlinkSync_gone _ (route.disk w)).
    + intros q Hq. by apply (unlinkSync_frame (String c p)).
Qed.

Lemma POST_cleanup_follows_oldPath_witness :
  (∃ w', route.recover (λ _ _ _, "")
           (route.mkThrown "maxFileSize exceeded" (Some tmp1))
           (route.mkState (demo_disk [(tmp1, "png bytes")]) 0 [])
         = (inr (route.mkReply 500
                   [("error", "Upload failed: maxFileSize exceeded")]), w') ∧
         contents (route.disk w') !! tmp1 = None) ∧
  (∃ w', route.recover (λ _ _ _, "")
           (route.mkThrown "Invalid Formidable options: uploadDir"
              (Some tmp1))
           (route.mkState (demo_disk [(tmp1, "png bytes")]) 0 [])
         = (inr (route.mkReply 500
                   [("error",
                     "Error parsing form data. Check server logs for formidable issues.")]),
            w') ∧
         contents (route.disk w') !! tmp1 = Some "png bytes").
Proof.
  split.
  - destruct (POST_cleanup_follows_oldPath (λ _ _ _, "")
                (route.mkThrown "maxFileSize exceeded" (Some tmp1))
                (route.mkState (demo_disk [(tmp1, "png bytes")]) 0 []))
      as (reply & w' & Hrun & _ & Hw).
    vm_compute in Hw. destruct Hw as (-> & _ & Hgone & _).
    exists w'. split; [exact Hrun |]. vm_compute. exact Hgone.
  - destruct (POST_cleanup_follows_oldPath (λ _ _ _, "")
                (route.mkThrown "Invalid Formidable options: uploadDir"
                   (Some tmp1))
                (route.mkState (demo_disk [(tmp1, "png bytes")]) 0 []))
      as (reply & w' & Hrun & _ & Hw).
    simpl in Hw. destruct Hw as (-> & Hdisk & _).
    exists w'. split; [exact Hrun |]. rewrite Hdisk. by vm_compute.
Defined.
